(** * torchdynamo: tracked variables and guard accumulation

    A shallow embedding of [torchdynamo/variable_tracker.py].  Tracked
    variables are immutable values; the frame driver [tx], the graph it
    builds and the allocation of [MutableLocal] markers are an explicit
    state that every effectful operation threads.  Python exceptions are
    an error type. *)

From stdpp Require Import gmap strings list sorting.
From Stdlib Require Import ZArith Lia Ascii.

Set Warnings "-register-all,-clear-no-such-hyp".

Local Open Scope Z_scope.

(** ** Exceptions *)

(** The exceptions the modelled code can raise.  [Unimplemented] is the
    graph-break signal of [utils.unimplemented].  [Unmodelled] is not a
    Python exception: it marks the places where the source goes on into
    code this development does not follow. *)
Inductive Exn :=
| AssertionError | Unimplemented | StopIteration | NotImplementedError
| ValueError | TypeError | IndexError | KeyError | Unmodelled.

Inductive Result (A : Type) :=
| Ok (a : A)
| Raise (e : Exn).
Arguments Ok {A} a.
Arguments Raise {A} e.

Definition rbind {A B} (m : Result A) (k : A -> Result B) : Result B :=
  match m with
  | Ok a => k a
  | Raise e => Raise e
  end.

Notation "x <-- m ;; k" := (rbind m (fun x => k))
  (at level 100, m at next level, right associativity, only parsing).
Notation "'assert!' b ;; k" := (if b then k else Raise AssertionError)
  (at level 100, b at next level, right associativity, only parsing).

(** ** Data model *)

(** A guard is compared by its [(name, kind)]. *)
Abbreviation Guard := (string * string)%type.
Abbreviation Guards := (gset (string * string)).

(** Provenance handles are opaque to the engine. *)
Abbreviation Source := string.

(** [MutableLocal] is a payload-free marker whose identity matters: an
    instance is represented by its allocation number. *)
Abbreviation MutableLocal := nat.

(** Literal values held by [ConstantVariable]. *)
Inductive PyConst :=
| PNone
| PInt (z : Z)
| PStr (s : string).

Global Instance PyConst_eq_dec : EqDecision PyConst.
Proof. solve_decision. Defined.

(** Handles into the FX graph: the index of the node. *)
Abbreviation Proxy := nat.

(** Fields set by [VariableTracker.__init__]; the same record carries
    the keyword arguments [guards], [source] and [mutable_local] handed
    to a constructor.  [guards or set()] makes an absent and an empty
    [guards] argument the same. *)
Record Base := mkBase {
  guards : Guards;
  source : option Source;
  mutable_local : option MutableLocal
}.

(** Metadata of [TensorVariable]; [None] is an unknown field. *)
Record TensorMeta := mkMeta {
  dtype : option string;
  device : option string;
  ndim : option Z;
  size : option (list Z);
  stride : option (list Z);
  requires_grad : option bool
}.

Definition no_meta : TensorMeta := mkMeta None None None None None None.

(** The builtins that [BuiltinVariable.call_function] tells apart. *)
Inductive Builtin :=
| b_len | b_range | b_slice | b_iter | b_zip | b_enumerate
| b_isinstance | b_super | b_next | b_hasattr
| b_foldable (name : string)   (* the rest of [_constant_fold_functions] *)
| b_other (name : string).

(** The concrete classes below [BaseListVariable], with the fields each
    adds to [items]. *)
Inductive ListClass :=
| cls_List
| cls_Tuple
| cls_NamedTuple (tuple_cls : string)
| cls_Range (start stop step : Z)
| cls_Slice.

(** An instance: its class and its [__dict__]. *)
Inductive VariableTracker :=
| VConstant (value : PyConst) (b : Base)
| VTensor (proxy : Proxy) (meta : TensorMeta) (b : Base)
| VBuiltin (fn : Builtin) (b : Base)
| VListIterator (items : list VariableTracker) (index : Z) (b : Base)
| VBaseList (cls : ListClass) (items : list VariableTracker) (b : Base)
| VConstDict (items : list (PyConst * VariableTracker)) (b : Base)
| VUnknown (b : Base).

Definition base (v : VariableTracker) : Base :=
  match v with
  | VConstant _ b | VTensor _ _ b | VBuiltin _ b | VListIterator _ _ b
  | VBaseList _ _ b | VConstDict _ b | VUnknown b => b
  end.

Definition guards_of (v : VariableTracker) : Guards := guards (base v).
Definition source_of (v : VariableTracker) : option Source := source (base v).
Definition mutable_local_of (v : VariableTracker) : option MutableLocal :=
  mutable_local (base v).

(** Keyword arguments [**options] as [propagate] returns them. *)
Definition options (g : Guards) : Base := mkBase g None None.

(** [mutable_local=MutableLocal(), **options] *)
Definition with_mutable_local (t : MutableLocal) (o : Base) : Base :=
  mkBase (guards o) (source o) (Some t).

(** ** Guard propagation *)

(** What [VariableTracker.propagate] can be handed: tracked variables
    inside lists, tuples and the value views of dicts and ordered dicts;
    anything else is a foreign object. *)
Inductive PyArg :=
| AVar (v : VariableTracker)
| AList (l : list PyArg)
| ATuple (l : list PyArg)
| ADictValues (l : list PyArg)
| AODictValues (l : list PyArg)
| AOther (typ : string).

(** The inner [visit] of [propagate]; the set [guards] it updates is
    threaded. *)
Fixpoint visit (var : PyArg) (acc : Guards) : Result Guards :=
  let fix visit_each (l : list PyArg) (acc : Guards) : Result Guards :=
    match l with
    | [] => Ok acc
    | i :: rest => acc' <-- visit i acc ;; visit_each rest acc'
    end in
  match var with
  | AList l | ATuple l | ADictValues l | AODictValues l => visit_each l acc
  | AVar v => Ok (acc ∪ guards_of v)
  | AOther _ => Raise AssertionError
  end.

Fixpoint visit_each (l : list PyArg) (acc : Guards) : Result Guards :=
  match l with
  | [] => Ok acc
  | i :: rest => acc' <-- visit i acc ;; visit_each rest acc'
  end.

(** [VariableTracker.propagate]: the [guards] entry of the dict it
    returns for the argument tuple [vars]. *)
Definition propagate (vars : list PyArg) : Result Guards :=
  visit (ATuple vars) ∅.

(** The tracked variables at the leaves of an argument structure, and
    whether every leaf is one. *)
Fixpoint leaves (a : PyArg) : list VariableTracker :=
  match a with
  | AVar v => [v]
  | AList l | ATuple l | ADictValues l | AODictValues l => mbind leaves l
  | AOther _ => []
  end.

Fixpoint all_tracked (a : PyArg) : bool :=
  match a with
  | AVar _ => true
  | AList l | ATuple l | ADictValues l | AODictValues l => forallb all_tracked l
  | AOther _ => false
  end.

Definition union_guards (vs : list VariableTracker) : Guards :=
  ⋃ (guards_of <$> vs).

(** ** Python sequences *)

(** [l[i]] *)
Definition py_getitem {A} (l : list A) (i : Z) : Result A :=
  let n := Z.of_nat (length l) in
  let j := if decide (i < 0) then i + n else i in
  if decide (0 <= j < n) then
    match l !! Z.to_nat j with
    | Some x => Ok x
    | None => Raise IndexError
    end
  else Raise IndexError.

(** [l[i:]] *)
Definition py_slice_from {A} (l : list A) (i : Z) : list A :=
  let n := Z.of_nat (length l) in
  let j := if decide (i < 0) then Z.max 0 (i + n) else Z.min i n in
  drop (Z.to_nat j) l.

(** [l.insert(i, x)] on a copy of [l] *)
Definition py_insert {A} (l : list A) (i : Z) (x : A) : list A :=
  let n := Z.of_nat (length l) in
  let j := if decide (i < 0) then Z.max 0 (i + n) else Z.min i n in
  take (Z.to_nat j) l ++ x :: drop (Z.to_nat j) l.

(** [l.pop(i)] on a copy of [l]: the element and what is left *)
Definition py_pop {A} (l : list A) (i : Z) : Result (A * list A) :=
  let n := Z.of_nat (length l) in
  let j := if decide (i < 0) then i + n else i in
  if decide (0 <= j < n) then
    match l !! Z.to_nat j with
    | Some x => Ok (x, delete (Z.to_nat j) l)
    | None => Raise IndexError
    end
  else Raise IndexError.

(** The elements of [range(start, stop, step)]. *)
Definition range_elements (start stop step : Z) : list Z :=
  let n :=
    if decide (0 < step) then Z.max 0 ((stop - start + step - 1) / step)
    else if decide (step < 0) then Z.max 0 ((start - stop - step - 1) / (- step))
    else 0 in
  (fun i : nat => start + Z.of_nat i * step) <$> seq 0 (Z.to_nat n).

(** ** Constructors *)

(** Each definition named after a class is that class's [__init__]
    (after the [__init__] of its bases). *)

Record Config := mkConfig {
  dynamic_propagation : bool;
  dynamic_shapes : bool
}.

Definition ConstantVariable (value : PyConst) (kw : Base) : VariableTracker :=
  VConstant value kw.

Definition TensorVariable (cfg : Config) (proxy : Proxy) (meta : TensorMeta)
    (kw : Base) : Result VariableTracker :=
  assert! (bool_decide (is_Some (dtype meta)) || negb (dynamic_propagation cfg)) ;;
  Ok (VTensor proxy meta kw).

Definition BuiltinVariable (fn : Builtin) (kw : Base) : VariableTracker :=
  VBuiltin fn kw.

Definition ListIteratorVariable (items : list VariableTracker) (index : Z)
    (kw : Base) : VariableTracker :=
  VListIterator items index kw.

Definition UnknownVariable (kw : Base) : VariableTracker := VUnknown kw.

(** [self.guards = set(self.guards)] and then, item by item,
    [self.guards.update(item.guards)]. *)
Definition update_guards (g : Guards) (items : list VariableTracker) : Guards :=
  foldl (fun acc item => acc ∪ guards_of item) g items.

Definition BaseListVariable (cls : ListClass) (items : list VariableTracker)
    (kw : Base) : VariableTracker :=
  VBaseList cls items
    (mkBase (update_guards (guards kw) items) (source kw) (mutable_local kw)).

Definition ListVariable := BaseListVariable cls_List.
Definition TupleVariable := BaseListVariable cls_Tuple.

Definition NamedTupleVariable (items : list VariableTracker) (tuple_cls : string)
    (kw : Base) : VariableTracker :=
  BaseListVariable (cls_NamedTuple tuple_cls) items kw.

(** [items=None] materialises the range as constants carrying [guards]. *)
Definition RangeVariable (start stop step : Z)
    (items : option (list VariableTracker)) (kw : Base) : VariableTracker :=
  let items :=
    match items with
    | Some items => items
    | None =>
        (fun x => ConstantVariable (PInt x) (options (guards kw)))
          <$> range_elements start stop step
    end in
  BaseListVariable (cls_Range start stop step) items kw.

Definition SliceVariable (items : list VariableTracker) (kw : Base)
    : Result VariableTracker :=
  let none := ConstantVariable PNone (options ∅) in
  match items with
  | [stop] => Ok (BaseListVariable cls_Slice [none; stop; none] kw)
  | [start; stop] => Ok (BaseListVariable cls_Slice [start; stop; none] kw)
  | [start; stop; step] => Ok (BaseListVariable cls_Slice [start; stop; step] kw)
  | _ => Raise AssertionError
  end.

(** ** Dict keys and [sorted] *)

(** [a < b] on literals: ints with ints, strings with strings (by code
    point); any other pair is a [TypeError]. *)
Definition py_lt (a b : PyConst) : Result bool :=
  match a, b with
  | PInt x, PInt y => Ok (bool_decide (x < y))
  | PStr s, PStr t => Ok (String.ltb s t)
  | _, _ => Raise TypeError
  end.

(** A stable insertion of [x], which stood before every element of the
    sorted [l]. *)
Fixpoint sorted_insert (x : PyConst) (l : list PyConst) : Result (list PyConst) :=
  match l with
  | [] => Ok [x]
  | y :: l' =>
      lt <-- py_lt y x ;;
      if (lt : bool) then (r <-- sorted_insert x l' ;; Ok (y :: r))
      else Ok (x :: y :: l')
  end.

(** [sorted(l)] *)
Fixpoint sorted (l : list PyConst) : Result (list PyConst) :=
  match l with
  | [] => Ok []
  | x :: l' => s <-- sorted l' ;; sorted_insert x s
  end.

(** The order [sorted] establishes. *)
Definition key_le (a b : PyConst) : Prop :=
  match a, b with
  | PInt x, PInt y => x <= y
  | PStr s, PStr t => String.le s t
  | _, _ => False
  end.

(** A dict or an ordered dict, as the list of its entries in insertion
    order. *)
Abbreviation Entries := (list (PyConst * VariableTracker)).

(** [d[k]] *)
Definition dict_getitem (d : Entries) (k : PyConst) : Result VariableTracker :=
  match list_find (fun e => e.1 = k) d with
  | Some (_, e) => Ok e.2
  | None => Raise KeyError
  end.

(** [d[k] = v] on an ordered dict: an existing key keeps its place, a new
    one goes last. *)
Fixpoint dict_setitem {V} (d : list (PyConst * V)) (k : PyConst) (v : V)
    : list (PyConst * V) :=
  match d with
  | [] => [(k, v)]
  | (k', v') :: d' =>
      if decide (k' = k) then (k', v) :: d' else (k', v') :: dict_setitem d' k v
  end.

(** The [items] argument of [ConstDictVariable]. *)
Inductive DictArg :=
| PlainDict (d : Entries)
| OrderedDict (d : Entries).

Fixpoint entries_for (d : Entries) (ks : list PyConst) : Result Entries :=
  match ks with
  | [] => Ok []
  | k :: ks' =>
      v <-- dict_getitem d k ;;
      r <-- entries_for d ks' ;;
      Ok ((k, v) :: r)
  end.

Definition ConstDictVariable (items : DictArg) (kw : Base) : Result VariableTracker :=
  match items with
  | OrderedDict d => Ok (VConstDict d kw)
  | PlainDict d =>
      ks <-- sorted (d.*1) ;;
      d' <-- entries_for d ks ;;
      Ok (VConstDict d' kw)
  end.

(** ** Constants *)

(** What [as_python_constant] returns: a literal, or a value assembled
    from the constants of the items. *)
Inductive PyValue :=
| PLit (c : PyConst)
| PSeq (cls : ListClass) (l : list PyValue)
| PFn (fn : Builtin)
| PIter (l : list PyValue).

Fixpoint as_python_constant (v : VariableTracker) : Result PyValue :=
  let fix each (l : list VariableTracker) : Result (list PyValue) :=
    match l with
    | [] => Ok []
    | x :: l' => c <-- as_python_constant x ;; r <-- each l' ;; Ok (c :: r)
    end in
  match v with
  | VConstant value _ => Ok (PLit value)
  | VBuiltin fn _ => Ok (PFn fn)
  | VListIterator items index _ =>
      if decide (index > 0) then Raise NotImplementedError
      else (r <-- each items ;; Ok (PIter r))
  | VBaseList (cls_Range a b c) _ _ => Ok (PSeq (cls_Range a b c) [])
  | VBaseList (cls_NamedTuple c) items _ =>
      (* [tuple_cls([...])]: the call of the user's class is not followed *)
      _ <-- each items ;; Raise Unmodelled
  | VBaseList cls items _ => r <-- each items ;; Ok (PSeq cls r)
  | VTensor _ _ _ | VConstDict _ _ | VUnknown _ => Raise NotImplementedError
  end.

(** [is_python_constant]: only [NotImplementedError] is caught. *)
Definition is_python_constant (v : VariableTracker) : Result bool :=
  match as_python_constant v with
  | Ok _ => Ok true
  | Raise NotImplementedError => Ok false
  | Raise e => Raise e
  end.

(** [all(x.is_python_constant() for x in l)] *)
Fixpoint all_python_constant (l : list VariableTracker) : Result bool :=
  match l with
  | [] => Ok true
  | x :: l' =>
      c <-- is_python_constant x ;;
      if (c : bool) then all_python_constant l' else Ok false
  end.

Abbreviation Kwargs := (list (string * VariableTracker)).

Definition check_constant_args (args : list VariableTracker) (kwargs : Kwargs)
    : Result bool :=
  all_python_constant (args ++ kwargs.*2).

(** ** Cloning *)

(** [clone(guards=g)]: the class is called again on the instance's
    [__dict__] with [guards] replaced.  The callers modelled here
    override no other field. *)
Definition clone (cfg : Config) (self : VariableTracker) (g : Guards)
    : Result VariableTracker :=
  let kw := mkBase g (source_of self) (mutable_local_of self) in
  match self with
  | VConstant value _ => Ok (ConstantVariable value kw)
  | VTensor proxy meta _ => TensorVariable cfg proxy meta kw
  | VBuiltin fn _ => Ok (BuiltinVariable fn kw)
  | VListIterator items index _ => Ok (ListIteratorVariable items index kw)
  | VBaseList cls_List items _ => Ok (ListVariable items kw)
  | VBaseList cls_Tuple items _ => Ok (TupleVariable items kw)
  | VBaseList (cls_NamedTuple c) items _ => Ok (NamedTupleVariable items c kw)
  | VBaseList (cls_Range a b c) items _ => Ok (RangeVariable a b c (Some items) kw)
  | VBaseList cls_Slice items _ => SliceVariable items kw
  | VConstDict items _ => ConstDictVariable (OrderedDict items) kw
  | VUnknown _ => Ok (UnknownVariable kw)
  end.

Definition add_guard (cfg : Config) (self : VariableTracker) (guard : Guard)
    : Result VariableTracker :=
  clone cfg self (guards_of self ∪ {[guard]}).

Definition add_guards (cfg : Config) (self : VariableTracker) (g : Guards)
    : Result VariableTracker :=
  clone cfg self (guards_of self ∪ g).

(** ** The driver and the graph *)

(** Sample values that flow through the graph under dynamic propagation:
    a tensor with its concrete metadata, a tuple ([Some c] for a named
    tuple of class [c]), [None], or a value of any other type. *)
Inductive Example :=
| ExTensor (meta : TensorMeta)
| ExTuple (cls : option string) (l : list Example)
| ExNone
| ExOther (typ : string).

Inductive Target :=
| t_len
| t_getitem
| t_other (name : string).

Inductive NodeArg :=
| NProxy (p : Proxy)
| NInt (i : Z).

Record Node := mkNode {
  op : string;
  target : Target;
  node_args : list NodeArg;
  example_value : option Example      (* [meta["example_value"]] *)
}.

(** What the operations read and write besides their arguments: the
    number of [MutableLocal] markers allocated so far, the nodes of the
    graph that [tx.create_proxy] made, and the substitutions requested
    through [tx.replace_all], latest first. *)
Record State := mkState {
  allocated : nat;
  graph : list Node;
  replaced : list (VariableTracker * VariableTracker)
}.

Definition M (A : Type) : Type := State -> Result A * State.

Definition ret {A} (a : A) : M A := fun st => (Ok a, st).
Definition throw {A} (e : Exn) : M A := fun st => (Raise e, st).
Definition lift {A} (r : Result A) : M A := fun st => (r, st).

Definition bind {A B} (m : M A) (k : A -> M B) : M B :=
  fun st =>
    match m st with
    | (Ok a, st') => k a st'
    | (Raise e, st') => (Raise e, st')
    end.

Notation "x <~ m ;; k" := (bind m (fun x => k))
  (at level 100, m at next level, right associativity, only parsing).
Notation "'check!' b ;; k" := (if b then k else throw AssertionError)
  (at level 100, b at next level, right associativity, only parsing).

(** [MutableLocal()] *)
Definition new_MutableLocal : M MutableLocal :=
  fun st => (Ok (allocated st), mkState (S (allocated st)) (graph st) (replaced st)).

(** [tx.create_proxy(op, target, args, {})] *)
Definition create_proxy (op : string) (target : Target) (args : list NodeArg)
    : M Proxy :=
  fun st =>
    (Ok (length (graph st)),
     mkState (allocated st) (graph st ++ [mkNode op target args None]) (replaced st)).

(** [tx.replace_all(old, new)] *)
Definition replace_all (old new : VariableTracker) : M unit :=
  fun st => (Ok tt, mkState (allocated st) (graph st) ((old, new) :: replaced st)).

(** [proxy.node.meta["example_value"] = value] *)
Definition set_example_value (p : Proxy) (ex : Example) : M unit :=
  fun st =>
    (Ok tt,
     mkState (allocated st)
       (alter (fun n => mkNode (op n) (target n) (node_args n) (Some ex)) p (graph st))
       (replaced st)).

Definition get_node (p : Proxy) : M Node :=
  fun st =>
    match graph st !! p with
    | Some n => (Ok n, st)
    | None => (Raise KeyError, st)
    end.

(** ** Tensors *)

(** [TensorVariable.specialize]: an example tensor carries all its
    metadata; size and stride are kept unless shapes are dynamic. *)
Definition specialize (cfg : Config) (value : TensorMeta) : TensorMeta :=
  mkMeta (dtype value) (device value) (ndim value)
    (if dynamic_shapes cfg then None else size value)
    (if dynamic_shapes cfg then None else stride value)
    (requires_grad value).

(** [propagate_args_kwargs]: the example value of every argument node. *)
Fixpoint propagate_args_kwargs (args : list NodeArg) : M (list Example) :=
  match args with
  | [] => ret []
  | NInt i :: rest =>
      r <~ propagate_args_kwargs rest ;; ret (ExOther "int" :: r)
  | NProxy p :: rest =>
      n <~ get_node p ;;
      match example_value n with
      | None => throw KeyError
      | Some ex => r <~ propagate_args_kwargs rest ;; ret (ex :: r)
      end
  end.

(** The eager run of a node on example values.  [len] of a tensor is
    an int, or a [TypeError] for a tensor without dimensions; running any
    other target is not followed. *)
Definition run_node (n : Node) (args : list Example) : Result Example :=
  if decide (op n = "call_function") then
    match target n, args with
    | t_len, [ExTensor meta] =>
        match size meta with
        | Some (_ :: _) => Ok (ExOther "int")
        | _ => Raise TypeError
        end
    | t_len, [ExTuple _ _] => Ok (ExOther "int")
    | t_len, _ => Raise TypeError
    | _, _ => Raise Unmodelled
    end
  else if decide (op n = "call_method") then Raise Unmodelled
  else if decide (op n = "call_module") then Raise Unmodelled
  else Raise AssertionError.

(** [TensorVariable.create] once the example value is at hand ([ExNone]
    when there is none), from the test [isinstance(example_value,
    torch.Tensor)] on.  An element of a tuple is created with itself as
    example value; when that element is [None] the source runs the new
    [getitem] node, whose argument, the tuple's node, was given no
    example value. *)
Fixpoint create_example (cfg : Config) (ex : Example) (proxy : Proxy) (kw : Base)
    : M VariableTracker :=
  let fix unpack (l : list Example) (i : Z) : M (list VariableTracker) :=
    match l with
    | [] => ret []
    | val :: rest =>
        p <~ create_proxy "call_function" t_getitem [NProxy proxy; NInt i] ;;
        v <~ match val with
             | ExNone =>
                 n <~ get_node p ;;
                 check! (bool_decide (example_value n = None)) ;;
                 args <~ propagate_args_kwargs (node_args n) ;;
                 ex' <~ lift (run_node n args) ;;
                 throw Unmodelled
             | _ =>
                 n <~ get_node p ;;
                 check! (bool_decide (example_value n = None)) ;;
                 create_example cfg val p kw
             end ;;
        r <~ unpack rest (i + 1) ;;
        ret (v :: r)
    end in
  match ex with
  | ExTensor meta =>
      _ <~ set_example_value proxy ex ;;
      lift (TensorVariable cfg proxy (specialize cfg meta) kw)
  | ExTuple cls l =>
      unpacked <~ unpack l 0 ;;
      match cls with
      | None => ret (TupleVariable unpacked kw)
      | Some c => ret (NamedTupleVariable unpacked c kw)
      end
  | ExNone | ExOther _ => throw AssertionError
  end.

(** [TensorVariable.create(proxy, example_value, **options)] for a call
    without [nnmodule]. *)
Definition TensorVariable_create (cfg : Config) (proxy : Proxy)
    (example : Example) (kw : Base) : M VariableTracker :=
  n <~ get_node proxy ;;
  check! (bool_decide (example_value n = None)) ;;
  if negb (dynamic_propagation cfg) then
    match example with
    | ExTensor meta => lift (TensorVariable cfg proxy (specialize cfg meta) kw)
    | _ => lift (TensorVariable cfg proxy no_meta kw)
    end
  else
    ex <~ match example with
          | ExNone =>
              args <~ propagate_args_kwargs (node_args n) ;;
              lift (run_node n args)
          | _ => ret example
          end ;;
    create_example cfg ex proxy kw.

(** ** Iterators *)

(** [ListIteratorVariable.next_variables] *)
Definition next_variables (cfg : Config) (self : VariableTracker)
    : M (VariableTracker * VariableTracker) :=
  match self with
  | VListIterator items index b =>
      check! (bool_decide (is_Some (mutable_local b))) ;;
      if decide (index >= Z.of_nat (length items)) then throw StopIteration
      else
        item <~ lift (py_getitem items index) ;;
        val <~ lift (add_guards cfg item (guards b)) ;;
        t <~ new_MutableLocal ;;
        g <~ lift (propagate [AList [AVar self]]) ;;
        ret (val,
             ListIteratorVariable items (index + 1)
               (with_mutable_local t (options g)))
  | _ => throw Unmodelled
  end.

(** [unpack_var_sequence] *)
Definition unpack_var_sequence (cfg : Config) (self : VariableTracker)
    : Result (list VariableTracker) :=
  match self with
  | VListIterator items index b =>
      (fix each (l : list VariableTracker) : Result (list VariableTracker) :=
         match l with
         | [] => Ok []
         | x :: l' => x' <-- add_guards cfg x (guards b) ;; r <-- each l' ;; Ok (x' :: r)
         end) (py_slice_from items index)
  | VBaseList _ items _ => Ok items
  | VConstant _ _ => Raise Unmodelled    (* iterates the literal *)
  | _ => Raise NotImplementedError
  end.

(** ** Method calls *)

(** The default [call_method] and [call_function]. *)
Definition VariableTracker_call {A} : M A := throw Unimplemented.

(** [propagate(self, args, kwargs.values())] *)
Definition call_options (self : VariableTracker) (args : list VariableTracker)
    (kwargs : Kwargs) : Result Guards :=
  propagate [AVar self; AList (AVar <$> args); ADictValues (AVar <$> kwargs.*2)].

Definition is_nil {A} (l : list A) : bool :=
  match l with [] => true | _ => false end.

(** [ListVariable.call_method]; the result is the returned variable. *)
Definition ListVariable_call_method (self : VariableTracker) (name : string)
    (args : list VariableTracker) (kwargs : Kwargs) : M VariableTracker :=
  match self with
  | VBaseList cls_List items b =>
      g <~ lift (call_options self args kwargs) ;;
      if bool_decide (name = "append") && bool_decide (is_Some (mutable_local b)) then
        check! (is_nil kwargs) ;;
        match args with
        | [arg] =>
            t <~ new_MutableLocal ;;
            _ <~ replace_all self
                   (ListVariable (items ++ [arg]) (with_mutable_local t (options g))) ;;
            ret (ConstantVariable PNone (options g))
        | _ => throw ValueError
        end
      else if bool_decide (name = "insert") && bool_decide (is_Some (mutable_local b)) then
        check! (is_nil kwargs) ;;
        match args with
        | [idx; value] =>
            i <~ lift (as_python_constant idx) ;;
            match i with
            | PLit (PInt i) =>
                let items' := py_insert items i value in
                t <~ new_MutableLocal ;;
                _ <~ replace_all self
                       (ListVariable items' (with_mutable_local t (options g))) ;;
                ret (ConstantVariable PNone (options g))
            | _ => throw TypeError
            end
        | _ => throw ValueError
        end
      else if bool_decide (name = "pop") && bool_decide (is_Some (mutable_local b)) then
        check! (is_nil kwargs) ;;
        popped <~
          match args with
          | [] => lift (py_pop items (-1))
          | [a] =>
              i <~ lift (as_python_constant a) ;;
              match i with
              | PLit (PInt i) => lift (py_pop items i)
              | _ => throw TypeError
              end
          | a :: a' :: rest =>
              _ <~ lift (as_python_constant a) ;;
              _ <~ lift (as_python_constant a') ;;
              _ <~ lift ((fix each (l : list VariableTracker) : Result unit :=
                            match l with
                            | [] => Ok tt
                            | x :: l' => _ <-- as_python_constant x ;; each l'
                            end) rest) ;;
              throw TypeError
          end ;;
        t <~ new_MutableLocal ;;
        _ <~ replace_all self
               (ListVariable popped.2 (with_mutable_local t (options g))) ;;
        ret popped.1
      else VariableTracker_call
  | _ => throw Unmodelled
  end.

(** [ConstDictVariable.call_method]; [None] is a call that returns
    nothing. *)
Definition ConstDictVariable_call_method (self : VariableTracker) (name : string)
    (args : list VariableTracker) (kwargs : Kwargs) : M (option VariableTracker) :=
  match self with
  | VConstDict val b =>
      g <~ lift (call_options self args kwargs) ;;
      if bool_decide (name = "items") then
        check! (is_nil args && is_nil kwargs) ;;
        ret (Some (TupleVariable
               ((fun kv => TupleVariable
                             [ConstantVariable kv.1 (options g); kv.2] (options g))
                  <$> val)
               (options g)))
      else if bool_decide (name = "keys") then
        check! (is_nil args && is_nil kwargs) ;;
        ret (Some (TupleVariable
               ((fun kv => ConstantVariable kv.1 (options g)) <$> val) (options g)))
      else if bool_decide (name = "values") then
        check! (is_nil args && is_nil kwargs) ;;
        ret (Some (TupleVariable (val.*2) (options g)))
      else
        setattr <~
          (if bool_decide (name = "__setattr__") then
             match args with
             | [] => ret false
             | a :: _ =>
                 c <~ lift (is_python_constant a) ;;
                 ret (c && bool_decide (is_Some (mutable_local b)))
             end
           else ret false) ;;
        if (setattr : bool) then
          check! (is_nil kwargs) ;;
          match args with
          | [key; value] =>
              k <~ lift (as_python_constant key) ;;
              match k with
              | PLit k =>
                  let newval := dict_setitem val k value in
                  t <~ new_MutableLocal ;;
                  new <~ lift (ConstDictVariable (OrderedDict newval)
                                 (with_mutable_local t (options g))) ;;
                  _ <~ replace_all self new ;;
                  ret None
              | _ => throw Unmodelled   (* keys that are not literals *)
              end
          | _ => throw AssertionError
          end
        else VariableTracker_call
  | _ => throw Unmodelled
  end.

(** ** Builtins *)

Definition can_constant_fold_through (fn : Builtin) : bool :=
  match fn with
  | b_len | b_foldable _ => true
  | _ => false
  end.

(** [has_unpack_var_sequence]: any exception means no. *)
Definition has_unpack_var_sequence (cfg : Config) (v : VariableTracker)
    : Result bool :=
  match unpack_var_sequence cfg v with
  | Ok _ => Ok true
  | Raise Unmodelled => Raise Unmodelled
  | Raise _ => Ok false
  end.

(** The branch [self.fn is len] of [BuiltinVariable.call_function]. *)
Definition call_len (cfg : Config) (args : list VariableTracker) (kwargs : Kwargs)
    (g : Guards) : M VariableTracker :=
  check! (is_nil kwargs && bool_decide (length args = 1%nat)) ;;
  match args with
  | [arg] =>
      match arg with
      | VTensor proxy meta _ =>
          match size meta with
          | Some (d :: _) =>
              check! (negb (dynamic_shapes cfg)) ;;
              ret (ConstantVariable (PInt d) (options g))
          | _ =>
              p <~ create_proxy "call_function" t_len [NProxy proxy] ;;
              TensorVariable_create cfg p ExNone (options g)
          end
      | VBaseList _ items _ =>
          ret (ConstantVariable (PInt (Z.of_nat (length items))) (options g))
      | VConstDict items _ =>
          ret (ConstantVariable (PInt (Z.of_nat (length items))) (options g))
      | _ =>
          u <~ lift (has_unpack_var_sequence cfg arg) ;;
          if (u : bool) then
            l <~ lift (unpack_var_sequence cfg arg) ;;
            ret (ConstantVariable (PInt (Z.of_nat (length l))) (options g))
          else throw Unimplemented
      end
  | _ => throw AssertionError
  end.

(** [BuiltinVariable.call_function].  The branches that run the builtin
    itself on constants, and those for [range], [zip], [enumerate],
    [isinstance], [super] and [hasattr], are not followed. *)
Definition BuiltinVariable_call_function (cfg : Config) (self : VariableTracker)
    (args : list VariableTracker) (kwargs : Kwargs) : M VariableTracker :=
  match self with
  | VBuiltin fn b =>
      constant_args <~ lift (check_constant_args args kwargs) ;;
      g <~ lift (call_options self args kwargs) ;;
      if can_constant_fold_through fn && constant_args then throw Unmodelled
      else
        match fn with
        | b_range => if (constant_args : bool) then throw Unmodelled
                     else VariableTracker_call
        | b_slice =>
            check! (is_nil kwargs) ;;
            lift (SliceVariable args (options g))
        | b_iter =>
            match args with
            | VBaseList _ items _ :: rest =>
                check! (is_nil kwargs && is_nil rest) ;;
                t <~ new_MutableLocal ;;
                ret (ListIteratorVariable items 0 (with_mutable_local t (options g)))
            | arg :: rest =>
                u <~ lift (has_unpack_var_sequence cfg arg) ;;
                if (u : bool) then
                  check! (is_nil kwargs && is_nil rest) ;;
                  l <~ lift (unpack_var_sequence cfg arg) ;;
                  t <~ new_MutableLocal ;;
                  ret (ListIteratorVariable l 0 (with_mutable_local t (options g)))
                else VariableTracker_call
            | [] => VariableTracker_call
            end
        | b_len => call_len cfg args kwargs g
        | b_next =>
            match args with
            | VListIterator _ _ _ as it :: _ =>
                r <~ next_variables cfg it ;;
                _ <~ replace_all it r.2 ;;
                lift (add_guards cfg r.1 (guards b))
            | _ => VariableTracker_call
            end
        | b_zip | b_enumerate | b_isinstance | b_super | b_hasattr =>
            throw Unmodelled
        | b_foldable _ | b_other _ => VariableTracker_call
        end
  | _ => throw Unmodelled
  end.

(** ** The tree rewrite [VariableTracker.apply]

    [apply] keys its cache by [id(value)], so here the objects live in a
    store and are named by their address.  The store only grows: every
    object that [apply] keys is kept alive by the structure or by the
    cache, so no address is reused. *)
Module Apply.

Abbreviation addr := nat.

Inductive Obj :=
| OVar (cls : string) (dict : addr)         (* an instance and its [__dict__] *)
| OList (l : list addr)
| OOrderedDict (l : list (PyConst * addr))
| ODict (l : list (PyConst * addr))
| OPair (k : PyConst) (v : addr)            (* a tuple made by [items()] *)
| OAtom (repr : string).                    (* any other object *)

Abbreviation Heap := (list Obj).

(** The store, the [cache] argument, and a ghost log of the values
    that went past the cache test, latest first. *)
Record Walk := mkWalk {
  heap : Heap;
  cache : gmap addr addr;
  visited : list addr
}.

(** The interpreter bounds the depth of recursion; running into the
    bound is [RecursionError]. *)
Inductive Outcome (A : Type) :=
| Done (a : A) (w : Walk)
| Failed (e : Exn)
| RecursionError.
Arguments Done {A} a w.
Arguments Failed {A} e.
Arguments RecursionError {A}.

Definition obind {A B} (o : Outcome A) (k : A -> Walk -> Outcome B) : Outcome B :=
  match o with
  | Done a w => k a w
  | Failed e => Failed e
  | RecursionError => RecursionError
  end.

Definition alloc (o : Obj) (w : Walk) : addr * Walk :=
  (length (heap w), mkWalk (heap w ++ [o]) (cache w) (visited w)).

(** [args = dict(self.__dict__); args.update(kwargs)] *)
Definition dict_update (args kwargs : list (PyConst * addr))
    : list (PyConst * addr) :=
  foldl (fun acc kv => dict_setitem acc kv.1 kv.2) args kwargs.

(** The three loops of [apply], over what [rec] does to one value:
    the list comprehension, the generator over [items()] that feeds
    [OrderedDict], and the dict comprehension. *)
Definition each_element (rec : addr -> Walk -> Outcome addr)
    : list addr -> Walk -> Outcome (list addr) :=
  fix each l w :=
    match l with
    | [] => Done [] w
    | v :: l' =>
        obind (rec v w) (fun r w =>
        obind (each l' w) (fun rs w => Done (r :: rs) w))
    end.

Definition each_item (rec : addr -> Walk -> Outcome addr)
    : list (PyConst * addr) -> Walk -> Outcome (list (PyConst * addr)) :=
  fix each l w :=
    match l with
    | [] => Done [] w
    | (k, v) :: l' =>
        let (p, w) := alloc (OPair k v) w in
        obind (rec p w) (fun r w =>
        match heap w !! r with
        | Some (OPair k' v') =>
            obind (each l' w) (fun rs w => Done ((k', v') :: rs) w)
        | _ => Failed TypeError
        end)
    end.

Definition each_value (rec : addr -> Walk -> Outcome addr)
    : list (PyConst * addr) -> Walk -> Outcome (list (PyConst * addr)) :=
  fix each l w :=
    match l with
    | [] => Done [] w
    | (k, v) :: l' =>
        obind (rec v w) (fun r w =>
        obind (each l' w) (fun rs w => Done ((k, r) :: rs) w))
    end.

(** The state in which the body of [apply] runs, the value being
    logged, and the one it leaves: [cache[idx] = result]. *)
Definition entered (value : addr) (w : Walk) : Walk :=
  mkWalk (heap w) (cache w) (value :: visited w).

Definition recorded (value r : addr) (w : Walk) : Walk :=
  mkWalk (heap w) (<[value := r]> (cache w)) (visited w).

Section apply.

(** The callback, and the call of [self.__class__] on the merged
    arguments that ends [clone]; both may allocate. *)
Variable fn : addr -> Heap -> Result (addr * Heap).
Variable construct :
  string -> list (PyConst * addr) -> Heap -> Result (addr * Heap).

Definition run (f : Heap -> Result (addr * Heap)) (w : Walk) : Outcome addr :=
  match f (heap w) with
  | Ok (a, h) => Done a (mkWalk h (cache w) (visited w))
  | Raise e => Failed e
  end.

(** [value.clone] with the entries of [kwargs] as keyword
    arguments. *)
Definition clone (value kwargs : addr) (w : Walk) : Outcome addr :=
  match heap w !! value with
  | Some (OVar cls d) =>
      match heap w !! d, heap w !! kwargs with
      | Some (ODict self_dict), Some (ODict kw) =>
          run (construct cls (dict_update self_dict kw)) w
      | Some (ODict self_dict), Some (OOrderedDict kw) =>
          run (construct cls (dict_update self_dict kw)) w
      | _, _ => Failed TypeError
      end
  | _ => Failed TypeError
  end.

(** The body of [apply] below the cache test, over the recursive
    call [rec]. *)
Definition rewrite (rec : addr -> Walk -> Outcome addr) (value : addr) (w : Walk)
    : Outcome addr :=
  match heap w !! value with
  | None => Failed Unmodelled
  | Some (OVar cls d) =>
      obind (rec d w) (fun kwargs w =>
      obind (clone value kwargs w) (fun v w =>
      run (fn v) w))
  | Some (OList l) =>
      obind (each_element rec l w) (fun rs w =>
      let (a, w) := alloc (OList rs) w in Done a w)
  | Some (OOrderedDict l) =>
      obind (each_item rec l w) (fun rs w =>
      let (a, w) := alloc (OOrderedDict (dict_update [] rs)) w in Done a w)
  | Some (ODict l) =>
      obind (each_value rec l w) (fun rs w =>
      let (a, w) := alloc (ODict rs) w in Done a w)
  | Some (OPair _ _) | Some (OAtom _) => Done value w
  end.

(** [cls.apply(fn, value, cache)] under the recursion limit [depth]. *)
Fixpoint apply (depth : nat) (value : addr) (w : Walk) : Outcome addr :=
  match depth with
  | O => RecursionError
  | S depth =>
      match cache w !! value with
      | Some r => Done r w
      | None =>
          obind (rewrite (apply depth) value (entered value w))
            (fun r w => Done r (recorded value r w))
      end
  end.

End apply.

(** [identity], the callback of [VariableTracker.copy]. *)
Definition identity (v : addr) (h : Heap) : Result (addr * Heap) := Ok (v, h).

(** A constructor that stores its arguments: a new [__dict__] and a
    new instance. *)
Definition store_fields (cls : string) (args : list (PyConst * addr)) (h : Heap)
    : Result (addr * Heap) :=
  Ok (S (length h), h ++ [ODict args; OVar cls (length h)]).

(** The values [apply] goes into from an object.  The values of an
    ordered dict are not among them: what is rewritten there are the
    tuples of [items()]. *)
Definition children (o : Obj) : list addr :=
  match o with
  | OVar _ d => [d]
  | OList l => l
  | ODict l => l.*2
  | OOrderedDict _ | OPair _ _ | OAtom _ => []
  end.

(** A store without cycles: [rank] falls from every object to each of
    its children, which are in the store; and the [__dict__] of an
    instance is a dict. *)
Record acyclic (h : Heap) (rank : addr -> nat) : Prop := {
  children_below : forall a o c,
    h !! a = Some o -> c ∈ children o -> (c < length h)%nat /\ (rank c < rank a)%nat;
  instance_dict : forall a cls d,
    h !! a = Some (OVar cls d) -> exists es, h !! d = Some (ODict es)
}.

(** A call that returns, and leaves the objects it found as they
    were. *)
Definition returns (f : Heap -> Result (addr * Heap)) : Prop :=
  forall h, exists r h', f h = Ok (r, h') /\ h `prefix_of` h'.

(** What holds of the store and the cache throughout a rewrite of
    [h0]: the objects of [h0] stay; the cache keys objects of the
    store; a dict of [h0] is cached with a dict, and a list of [h0]
    with the list of what the cache holds for its elements. *)
Record inv (h0 : Heap) (w : Walk) : Prop := {
  inv_heap : h0 `prefix_of` heap w;
  inv_dom : forall a r, cache w !! a = Some r -> (a < length (heap w))%nat;
  inv_dict : forall a r es,
    cache w !! a = Some r -> h0 !! a = Some (ODict es) ->
    exists es', heap w !! r = Some (ODict es');
  inv_list : forall a r l,
    cache w !! a = Some r -> h0 !! a = Some (OList l) ->
    exists rs, heap w !! r = Some (OList rs)
               /\ Forall2 (fun c rc => cache w !! c = Some rc) l rs
}.

(** From [w] to [w']: the store and the cache grow, and the values
    that went past the cache test in between are distinct, were not
    cached before and are cached now; those of [h0] have a rank below
    [bound]. *)
Definition ext (h0 : Heap) (rank : addr -> nat) (w w' : Walk) (bound : nat)
    : Prop :=
  inv h0 w'
  /\ heap w `prefix_of` heap w'
  /\ (forall k x, cache w !! k = Some x -> cache w' !! k = Some x)
  /\ exists new,
       visited w' = new ++ visited w
       /\ NoDup new
       /\ (forall a, a ∈ new ->
             cache w !! a = None /\ is_Some (cache w' !! a)
             /\ ((a < length h0)%nat -> (rank a < bound)%nat))
       /\ (forall k x, cache w' !! k = Some x ->
             is_Some (cache w !! k) \/ k ∈ new).

End Apply.

(** ** Observations *)

(** [self.items] of the list classes and of iterators. *)
Definition items_of (v : VariableTracker) : list VariableTracker :=
  match v with
  | VBaseList _ items _ | VListIterator items _ _ => items
  | _ => []
  end.

(** An instance that its own class can have built under [cfg]: a tensor
    passed the assertion of [TensorVariable.__init__], a slice holds its
    three fields. *)
Definition constructible (cfg : Config) (v : VariableTracker) : bool :=
  match v with
  | VTensor _ meta _ =>
      bool_decide (is_Some (dtype meta)) || negb (dynamic_propagation cfg)
  | VBaseList cls_Slice items _ => bool_decide (length items = 3%nat)
  | _ => true
  end.

(** The keys of a dict variable, in the order it stores them. *)
Definition keys_of (v : VariableTracker) : list PyConst :=
  match v with
  | VConstDict items _ => items.*1
  | _ => []
  end.

Definition is_int (c : PyConst) : bool :=
  match c with PInt _ => true | _ => false end.

Definition is_str (c : PyConst) : bool :=
  match c with PStr _ => true | _ => false end.

(** Keys that [<] can compare with one another. *)
Definition comparable (ks : list PyConst) : bool :=
  forallb is_int ks || forallb is_str ks.

(** The guards that [propagate(self, args, kwargs.values())] collects. *)
Definition call_guards (self : VariableTracker) (args : list VariableTracker)
    (kwargs : Kwargs) : Guards :=
  union_guards (self :: args ++ kwargs.*2).

(** The state after one [MutableLocal()] and one [replace_all]. *)
Definition substituted (st : State) (old new : VariableTracker) : State :=
  mkState (S (allocated st)) (graph st) ((old, new) :: replaced st).

(** [next] taken [k] times, each on the iterator the call before
    returned: the values, and the last iterator. *)
Fixpoint next_times (cfg : Config) (k : nat) (it : VariableTracker)
    : M (list VariableTracker * VariableTracker) :=
  match k with
  | O => ret ([], it)
  | S k =>
      r <~ next_variables cfg it ;;
      rs <~ next_times cfg k r.2 ;;
      ret (r.1 :: rs.1, rs.2)
  end.

(** The state after [create_proxy] made the node that calls [len] on
    [proxy]. *)
Definition with_len_node (st : State) (proxy : Proxy) : State :=
  mkState (allocated st)
    (graph st ++ [mkNode "call_function" t_len [NProxy proxy] None])
    (replaced st).

(** ** Stores to rewrite *)

(** The list [l] after [l.append(l)]. *)
Definition self_containing_list : Apply.Heap := [Apply.OList [0%nat]].

(** A list that holds one constant variable twice: the guard set, the
    [__dict__], the instance, the list. *)
Definition list_of_shared_variable : Apply.Heap :=
  [Apply.OAtom "set()";
   Apply.ODict [(PStr "guards", 0%nat)];
   Apply.OVar "ConstantVariable" 1%nat;
   Apply.OList [2%nat; 2%nat]].

(** A rewrite starts with an empty cache. *)
Definition start (h : Apply.Heap) : Apply.Walk := Apply.mkWalk h ∅ [].

(** ** Indexing *)

(** [l[start:stop:step]]: the bounds are adjusted as [slice.indices]
    does, and the elements at the indices of the resulting range are
    taken. *)
Definition py_getslice {A} (l : list A) (start stop step : option Z)
    : Result (list A) :=
  let n := Z.of_nat (length l) in
  let step := default 1 step in
  if decide (step = 0) then Raise ValueError
  else
    let adjust (i : Z) : Z :=
      if decide (i < 0) then
        (if decide (i + n < 0) then (if decide (step < 0) then -1 else 0) else i + n)
      else if decide (i >= n) then (if decide (step < 0) then n - 1 else n)
      else i in
    let start :=
      match start with
      | Some i => adjust i
      | None => if decide (step < 0) then n - 1 else 0
      end in
    let stop :=
      match stop with
      | Some i => adjust i
      | None => if decide (step < 0) then -1 else n
      end in
    Ok (omap (fun i => l !! Z.to_nat i) (range_elements start stop step)).

(** A field of a slice object used as a bound. *)
Definition slice_bound (v : PyValue) : Result (option Z) :=
  match v with
  | PLit PNone => Ok None
  | PLit (PInt z) => Ok (Some z)
  | _ => Raise TypeError
  end.

(** [clone(items=...)] on an instance of a list class. *)
Definition clone_items (self : VariableTracker) (items : list VariableTracker)
    : Result VariableTracker :=
  match self with
  | VBaseList cls _ b =>
      match cls with
      | cls_List => Ok (ListVariable items b)
      | cls_Tuple => Ok (TupleVariable items b)
      | cls_NamedTuple c => Ok (NamedTupleVariable items c b)
      | cls_Range x y z => Ok (RangeVariable x y z (Some items) b)
      | cls_Slice => SliceVariable items b
      end
  | _ => Raise Unmodelled
  end.

(** [BaseListVariable.getitem_const] *)
Definition BaseListVariable_getitem_const (cfg : Config) (self arg : VariableTracker)
    : Result VariableTracker :=
  match self with
  | VBaseList _ items b =>
      index <-- as_python_constant arg ;;
      match index with
      | PSeq cls_Slice [start; stop; step] =>
          start <-- slice_bound start ;;
          stop <-- slice_bound stop ;;
          step <-- slice_bound step ;;
          items' <-- py_getslice items start stop step ;;
          v <-- clone_items self items' ;;
          add_guards cfg v (guards_of arg)
      | PLit (PInt i) =>
          item <-- py_getitem items i ;;
          v <-- add_guards cfg item (guards b) ;;
          add_guards cfg v (guards_of arg)
      | PSeq cls_Slice _ => Raise Unmodelled
      | _ => Raise AssertionError
      end
  | _ => Raise Unmodelled
  end.

(** [ConstDictVariable.getitem_const]; keys that are not literals are
    not followed. *)
Definition ConstDictVariable_getitem_const (cfg : Config) (self arg : VariableTracker)
    : Result VariableTracker :=
  match self with
  | VConstDict items b =>
      index <-- as_python_constant arg ;;
      match index with
      | PLit k =>
          item <-- dict_getitem items k ;;
          v <-- add_guards cfg item (guards b) ;;
          add_guards cfg v (guards_of arg)
      | _ => Raise Unmodelled
      end
  | _ => Raise Unmodelled
  end.

(** [[x.as_python_constant() for x in items]] *)
Fixpoint constants_of (items : list VariableTracker) : Result (list PyValue) :=
  match items with
  | [] => Ok []
  | x :: l => c <-- as_python_constant x ;; r <-- constants_of l ;; Ok (c :: r)
  end.

(** [[x.add_guards(guards) for x in l]] *)
Fixpoint add_guards_each (cfg : Config) (g : Guards) (l : list VariableTracker)
    : Result (list VariableTracker) :=
  match l with
  | [] => Ok []
  | x :: l' =>
      x' <-- add_guards cfg x g ;; r <-- add_guards_each cfg g l' ;; Ok (x' :: r)
  end.

(** ** Tensor methods *)

(** [product = functools.partial(functools.reduce, operator.mul)]:
    [reduce] without an initial value starts from the first element, and
    has nothing to return on an empty sequence. *)
Definition product (l : list Z) : Result Z :=
  match l with
  | [] => Raise TypeError
  | x :: l' => Ok (foldl Z.mul x l')
  end.

(** The values [TensorVariable.call_method] answers with from the
    metadata: a tuple of ints ([size], [stride]) or an int. *)
Inductive Literal :=
| LTuple (l : list Z)
| LInt (z : Z).

(** [value[index]]: an int has no items; a tuple takes an int (a slice of
    it is a tuple again, and is not followed). *)
Definition literal_getitem (value : Literal) (index : PyValue) : Result Z :=
  match value, index with
  | LTuple l, PLit (PInt i) => py_getitem l i
  | LTuple _, PSeq cls_Slice _ => Raise Unmodelled
  | _, _ => Raise TypeError
  end.

(** [ConstantVariable.getitem_const] on the constant
    [ConstantVariable(value, guards=g)]; [propagate([self, arg])] joins
    the guards of the two variables. *)
Definition ConstantVariable_getitem_const (value : Literal) (g : Guards)
    (arg : VariableTracker) : Result VariableTracker :=
  index <-- as_python_constant arg ;;
  item <-- literal_getitem value index ;;
  Ok (ConstantVariable (PInt item) (options (g ∪ guards_of arg))).

(** [[constant_result.getitem_const(a) for a in args]] *)
Fixpoint getitem_const_each (value : Literal) (g : Guards)
    (args : list VariableTracker) : Result (list VariableTracker) :=
  match args with
  | [] => Ok []
  | a :: l =>
      x <-- ConstantVariable_getitem_const value g a ;;
      r <-- getitem_const_each value g l ;;
      Ok (x :: r)
  end.

(** [name == n and field is not None], with the field at hand *)
Definition known {A} (name n : string) (field : option A) : option A :=
  if bool_decide (name = n) then field else None.

(** The value of [constant_result], [None] when the metadata has no
    answer.  [dtype.is_floating_point] is not followed. *)
Definition constant_result (meta : TensorMeta) (name : string)
    : Result (option Literal) :=
  match known name "stride" (stride meta) with
  | Some s => Ok (Some (LTuple s))
  | None =>
  match known name "size" (size meta) with
  | Some s => Ok (Some (LTuple s))
  | None =>
  match known name "numel" (size meta) with
  | Some s => n <-- product s ;; Ok (Some (LInt n))
  | None =>
  match (if bool_decide (name = "ndimension") || bool_decide (name = "dim")
         then ndim meta else None) with
  | Some n => Ok (Some (LInt n))
  | None =>
  match known name "is_floating_point" (dtype meta) with
  | Some _ => Raise Unmodelled
  | None => Ok None
  end end end end end.

(** [TensorVariable.call_method].  A [ConstantVariable] is an object
    without [__bool__] or [__len__], so [if constant_result:] asks
    whether there is one.  A constant that holds a tuple, and the last
    branch, which hands the call to the graph through
    [utils.proxy_args_kwargs], are not followed. *)
Definition TensorVariable_call_method (cfg : Config) (self : VariableTracker)
    (name : string) (args : list VariableTracker) (kwargs : Kwargs)
    : M VariableTracker :=
  match self with
  | VTensor proxy meta b =>
      g <~ lift (call_options self args kwargs) ;;
      result <~ lift (constant_result meta name) ;;
      match result with
      | Some value =>
          check! (is_nil kwargs) ;;
          match args with
          | [a] => lift (ConstantVariable_getitem_const value g a)
          | _ :: _ =>
              l <~ lift (getitem_const_each value g args) ;;
              ret (TupleVariable l (options g))
          | [] =>
              match value with
              | LInt n => ret (ConstantVariable (PInt n) (options g))
              | LTuple _ => throw Unmodelled
              end
          end
      | None =>
          dynamic_repeat <~
            (if bool_decide (name = "repeat") then
               c <~ lift (check_constant_args args kwargs) ;;
               ret (negb c && negb (dynamic_shapes cfg))
             else ret false) ;;
          if (dynamic_repeat : bool) then throw Unimplemented
          else if bool_decide (name = "item") || bool_decide (name = "tolist")
          then throw Unimplemented
          else if bool_decide (name = "__len__") then
            BuiltinVariable_call_function cfg (BuiltinVariable b_len (options ∅))
              (self :: args) kwargs
          else throw Unmodelled
      end
  | _ => throw Unmodelled
  end.

(** ** Skipped files *)

(** [skipfiles]: the directories whose code is never traced.  The module
    keeps two globals, the list [SKIP_DIRS] and the pattern
    [SKIP_DIRS_RE] compiled from it by [add]; a pattern
    [^(d1|...|dn)] over escaped alternatives matches the strings that
    one of the alternatives starts, and is held here as the list of its
    alternatives. *)
Module Skipfiles.

Abbreviation Path := (list ascii).

Definition sep : ascii := "/"%char.

Record Skip := mkSkip {
  SKIP_DIRS : list Path;
  SKIP_DIRS_RE : option (list Path)
}.

(** What [check] does: return, or fail on [None.match]. *)
Inductive Outcome :=
| Returns (b : bool)
| AttributeError.

(** [p[:p.rfind("/") + 1]] *)
Fixpoint head_of (p : Path) : Path :=
  match p with
  | [] => []
  | c :: p' =>
      match head_of p' with
      | [] => if decide (c = sep) then [c] else []
      | h => c :: h
      end
  end.

(** [p.rstrip("/")] *)
Fixpoint rstrip (p : Path) : Path :=
  match p with
  | [] => []
  | c :: p' =>
      match rstrip p' with
      | [] => if decide (c = sep) then [] else [c]
      | r => c :: r
      end
  end.

(** [os.path.dirname] of a POSIX path *)
Definition dirname (p : Path) : Path :=
  let head := head_of p in
  if bool_decide (head <> []) && bool_decide (head <> replicate (length head) sep)
  then rstrip head else head.

(** [bool(re.compile("^(" + "|".join(map(re.escape, alts)) + ")").match(s))];
    the pattern of no alternatives is [^()], which matches. *)
Definition re_match (alts : list Path) (s : Path) : bool :=
  match alts with
  | [] => true
  | _ => existsb (fun d => bool_decide (d `prefix_of` s)) alts
  end.

(** [add(module)], given [module.__file__] *)
Definition add (st : Skip) (file : Path) : Skip :=
  let dirs := SKIP_DIRS st ++ [dirname file ++ [sep]] in
  mkSkip dirs (Some dirs).

(** [check(filename)] *)
Definition check (st : Skip) (filename : option Path) : Outcome :=
  match filename with
  | None => Returns true
  | Some f =>
      match SKIP_DIRS_RE st with
      | None => AttributeError
      | Some alts => Returns (re_match alts f)
      end
  end.

(** The module once imported: [SKIP_DIRS] as first written, then [add]
    for each of the third-party libraries that could be imported, given
    by the files of their modules. *)
Definition load (dirs : list Path) (found : list Path) : Skip :=
  foldl add (mkSkip dirs None) found.

End Skipfiles.

(** * Properties *)

(** ** Guard propagation *)

Section PyArg_induction.
Variable P : PyArg -> Prop.
Hypothesis Hvar : forall v, P (AVar v).
Hypothesis Hlist : forall l, Forall P l -> P (AList l).
Hypothesis Htuple : forall l, Forall P l -> P (ATuple l).
Hypothesis Hvalues : forall l, Forall P l -> P (ADictValues l).
Hypothesis Hovalues : forall l, Forall P l -> P (AODictValues l).
Hypothesis Hother : forall t, P (AOther t).

Fixpoint PyArg_nested_ind (a : PyArg) : P a :=
  let fix all (l : list PyArg) : Forall P l :=
    match l with
    | [] => Forall_nil_2 P
    | x :: l' => Forall_cons_2 P x l' (PyArg_nested_ind x) (all l')
    end in
  match a with
  | AVar v => Hvar v
  | AList l => Hlist l (all l)
  | ATuple l => Htuple l (all l)
  | ADictValues l => Hvalues l (all l)
  | AODictValues l => Hovalues l (all l)
  | AOther t => Hother t
  end.
End PyArg_induction.

Lemma visit_sequence l acc :
  visit (AList l) acc = visit_each l acc
  /\ visit (ATuple l) acc = visit_each l acc
  /\ visit (ADictValues l) acc = visit_each l acc
  /\ visit (AODictValues l) acc = visit_each l acc.
Proof.
  revert acc. induction l as [|a l IH]; intros acc; [done|].
  cbn [visit visit_each]. destruct (visit a acc) as [acc'|e]; cbn [rbind]; [|done].
  destruct (IH acc') as (H1 & H2 & H3 & H4).
  cbn [visit] in H1, H2, H3, H4. by rewrite H1.
Qed.

Lemma union_guards_app l1 l2 :
  union_guards (l1 ++ l2) = union_guards l1 ∪ union_guards l2.
Proof.
  unfold union_guards. rewrite fmap_app. apply leibniz_equiv, union_list_app.
Qed.

Lemma visit_each_spec l :
  Forall (fun a => forall acc,
    visit a acc = if all_tracked a then Ok (acc ∪ union_guards (leaves a))
                  else Raise AssertionError) l ->
  forall acc,
    visit_each l acc = if forallb all_tracked l
                       then Ok (acc ∪ union_guards (l ≫= leaves))
                       else Raise AssertionError.
Proof.
  induction 1 as [|a l Ha _ IH]; intros acc; cbn [visit_each forallb].
  - f_equal. unfold union_guards. cbn. set_solver.
  - rewrite Ha. destruct (all_tracked a); cbn [rbind andb]; [|done].
    rewrite IH. destruct (forallb all_tracked l); [|done].
    f_equal. cbn [mbind list_bind]. rewrite union_guards_app. set_solver.
Qed.

Lemma visit_spec a acc :
  visit a acc = if all_tracked a then Ok (acc ∪ union_guards (leaves a))
                else Raise AssertionError.
Proof.
  revert acc. induction a as [v|l IH|l IH|l IH|l IH|t] using PyArg_nested_ind;
    intros acc.
  - cbn. f_equal. unfold union_guards. cbn. set_solver.
  - destruct (visit_sequence l acc) as (-> & _). by apply visit_each_spec.
  - destruct (visit_sequence l acc) as (_ & -> & _). by apply visit_each_spec.
  - destruct (visit_sequence l acc) as (_ & _ & -> & _). by apply visit_each_spec.
  - destruct (visit_sequence l acc) as (_ & _ & _ & ->). by apply visit_each_spec.
  - done.
Qed.

(** C1: [propagate] returns exactly the union of the guard sets of the
    tracked variables at the leaves of its arguments, however deeply
    lists, tuples and dict value views nest them, and raises
    [AssertionError] as soon as one leaf is not a tracked variable. *)
Theorem propagate_union_of_leaves (vars : list PyArg) :
  propagate vars =
    if forallb all_tracked vars
    then Ok (union_guards (vars ≫= leaves))
    else Raise AssertionError.
Proof.
  unfold propagate. rewrite visit_spec. cbn [all_tracked leaves].
  destruct (forallb all_tracked vars); [|done].
  f_equal. set_solver.
Qed.

(** ** Guards of clones *)

Lemma update_guards_union g items :
  update_guards g items = g ∪ union_guards items.
Proof.
  unfold update_guards, union_guards. revert g.
  induction items as [|x items IH]; intros g; cbn.
  - set_solver.
  - rewrite IH. set_solver.
Qed.

Lemma update_guards_absorb g h items :
  update_guards (update_guards (g ∪ h) items ∪ h) items
  = update_guards (g ∪ h) items.
Proof. rewrite !update_guards_union. set_solver. Qed.

Lemma clone_guards cfg v g v' :
  clone cfg v g = Ok v' -> g ⊆ guards_of v'.
Proof.
  destruct v as [c b|p m b|f b|its i b|cls its b|its b|b]; cbn;
    try (intros [= <-]; cbn; set_solver).
  - unfold TensorVariable. case_match; [|done]. intros [= <-]. cbn. set_solver.
  - destruct cls; cbn; try (intros [= <-]; cbn; rewrite update_guards_union; set_solver).
    unfold SliceVariable. repeat case_match; try done;
      intros [= <-]; cbn; rewrite ?update_guards_union; set_solver.
Qed.

Lemma clone_constructible cfg v g :
  constructible cfg v = true -> exists v', clone cfg v g = Ok v'.
Proof.
  destruct v as [c b|p m b|f b|its i b|cls its b|its b|b]; cbn; eauto.
  - unfold TensorVariable. intros ->. eauto.
  - destruct cls; cbn; eauto.
    intros Hlen%bool_decide_eq_true.
    destruct its as [|x [|y [|z [|? ?]]]]; try done. cbn. eauto.
Qed.

Lemma add_guard_again cfg v g v' :
  add_guard cfg v g = Ok v' -> add_guard cfg v' g = Ok v'.
Proof.
  unfold add_guard.
  destruct v as [c b|p m b|f b|its i b|cls its b|its b|b]; cbn;
    try (intros [= <-]; cbn; do 3 f_equal; set_solver).
  - unfold TensorVariable. case_match eqn:Hok; [|done]. intros [= <-].
    cbn [clone guards_of base source_of mutable_local_of guards source mutable_local].
    unfold TensorVariable. rewrite Hok. do 3 f_equal. set_solver.
  - assert (forall c items, BaseListVariable c items
        {| guards := guards_of (BaseListVariable c items
             {| guards := guards b ∪ {[g]}; source := source b;
                mutable_local := mutable_local b |}) ∪ {[g]};
           source := source b; mutable_local := mutable_local b |}
        = BaseListVariable c items
            {| guards := guards b ∪ {[g]}; source := source b;
               mutable_local := mutable_local b |}) as Habs.
    { intros c items. unfold BaseListVariable. cbn. do 2 f_equal.
      apply update_guards_absorb. }
    destruct cls; cbn; try (intros [= <-]; cbn; f_equal; apply Habs).
    unfold SliceVariable.
    destruct its as [|x [|y [|z [|? ?]]]]; try done;
      intros [= <-]; cbn; f_equal; apply Habs.
Qed.

(** C2: on every tracked variable [add_guard] returns a variable whose
    guards include the old guards and the new one, and adding the same
    guard once more returns that very variable again. *)
Theorem add_guard_superset_idempotent cfg (v : VariableTracker) (g : Guard) :
  constructible cfg v = true ->
  exists v', add_guard cfg v g = Ok v'
    /\ guards_of v ∪ {[g]} ⊆ guards_of v'
    /\ add_guard cfg v' g = Ok v'.
Proof.
  intros Hv. destruct (clone_constructible cfg v (guards_of v ∪ {[g]}) Hv) as [v' Hv'].
  exists v'. split; [done|]. split.
  - by eapply clone_guards.
  - by eapply add_guard_again.
Qed.

Lemma add_guard_superset_idempotent_witness :
  exists v', add_guard (mkConfig true false)
               (ListVariable [ConstantVariable (PInt 1) (options {[("x", "TYPE_MATCH")]})]
                  (options ∅)) ("y", "ID_MATCH") = Ok v'
    /\ guards_of (ListVariable
                    [ConstantVariable (PInt 1) (options {[("x", "TYPE_MATCH")]})]
                    (options ∅)) ∪ {[("y", "ID_MATCH")]} ⊆ guards_of v'
    /\ add_guard (mkConfig true false) v' ("y", "ID_MATCH") = Ok v'.
Proof. apply add_guard_superset_idempotent. reflexivity. Defined.

(** ** Slices *)

(** C9: [SliceVariable] turns one, two or three arguments into the
    triple start, stop, step, a missing field being the constant [None];
    so [slice(5)] is [(None, 5, None)], [slice(1, 5)] is [(1, 5, None)]
    and [slice(1, 5, 2)] is [(1, 5, 2)].  No other number of arguments
    is accepted. *)
Theorem SliceVariable_normalizes (a b c : VariableTracker) (rest : list VariableTracker)
    (kw : Base) :
  let none := ConstantVariable PNone (options ∅) in
  let lit z := ConstantVariable (PInt z) (options ∅) in
  (exists v, SliceVariable [b] kw = Ok v /\ items_of v = [none; b; none])
  /\ (exists v, SliceVariable [a; b] kw = Ok v /\ items_of v = [a; b; none])
  /\ (exists v, SliceVariable [a; b; c] kw = Ok v /\ items_of v = [a; b; c])
  /\ SliceVariable [] kw = Raise AssertionError
  /\ SliceVariable (a :: b :: c :: a :: rest) kw = Raise AssertionError
  /\ (v <-- SliceVariable [lit 5] kw ;; as_python_constant v)
     = Ok (PSeq cls_Slice [PLit PNone; PLit (PInt 5); PLit PNone])
  /\ (v <-- SliceVariable [lit 1; lit 5] kw ;; as_python_constant v)
     = Ok (PSeq cls_Slice [PLit (PInt 1); PLit (PInt 5); PLit PNone])
  /\ (v <-- SliceVariable [lit 1; lit 5; lit 2] kw ;; as_python_constant v)
     = Ok (PSeq cls_Slice [PLit (PInt 1); PLit (PInt 5); PLit (PInt 2)]).
Proof.
  cbn zeta. repeat split; try reflexivity; eexists; split; reflexivity.
Qed.

(** ** Guards of containers *)

(** The list classes fold the guards of their items into their own. *)
Lemma BaseListVariable_item_guards cls items kw x :
  x ∈ items -> guards_of x ⊆ guards_of (BaseListVariable cls items kw).
Proof.
  intros Hx. cbn. rewrite update_guards_union. unfold union_guards.
  intros g Hg. apply elem_of_union_r, elem_of_union_list.
  exists (guards_of x). split; [|done]. by apply list_elem_of_fmap_2.
Qed.

Lemma list_classes_item_guards items kw x :
  x ∈ items ->
  guards_of x ⊆ guards_of (ListVariable items kw)
  /\ guards_of x ⊆ guards_of (TupleVariable items kw)
  /\ (forall c, guards_of x ⊆ guards_of (NamedTupleVariable items c kw))
  /\ (forall a b c, guards_of x ⊆ guards_of (RangeVariable a b c (Some items) kw))
  /\ (forall v, SliceVariable items kw = Ok v -> guards_of x ⊆ guards_of v).
Proof.
  intros Hx. repeat split; try (intros; by apply BaseListVariable_item_guards).
  intros v. unfold SliceVariable.
  destruct items as [|p [|q [|r [|? ?]]]]; try done; intros [= <-];
    apply BaseListVariable_item_guards; set_solver.
Qed.

(** C6: [ConstDictVariable.__init__] leaves the guards of the values
    out.  A dict built from one value that carries a guard has no guard
    itself, while the list built from the same value has it. *)
Theorem ConstDictVariable_drops_item_guards :
  let g : Guard := ("x", "TYPE_MATCH") in
  let item := ConstantVariable (PInt 1) (options {[g]}) in
  exists v,
    ConstDictVariable (PlainDict [(PStr "a", item)]) (options ∅) = Ok v
    /\ guards_of v = ∅
    /\ g ∈ guards_of item
    /\ (g ∉ guards_of v)
    /\ g ∈ guards_of (ListVariable [item] (options ∅)).
Proof.
  cbn zeta. eexists. split; [reflexivity|]. cbn.
  repeat split; set_solver.
Qed.

(** ** Order of dict keys *)

Lemma py_lt_raises a b e : py_lt a b = Raise e -> e = TypeError.
Proof. destruct a, b; cbn; congruence. Qed.

Lemma py_lt_false a b : py_lt a b = Ok false -> key_le b a.
Proof.
  destruct a as [|x|s], b as [|y|t]; cbn; try done; intros [= H].
  - apply bool_decide_eq_false in H. lia.
  - unfold String.le, String.leb, String.ltb in *.
    rewrite String.compare_antisym. by destruct (String.compare s t).
Qed.

Lemma py_lt_true a b : py_lt a b = Ok true -> key_le a b.
Proof.
  destruct a as [|x|s], b as [|y|t]; cbn; try done; intros [= H].
  - apply bool_decide_eq_true in H. lia.
  - unfold String.le, String.leb, String.ltb in *.
    by destruct (String.compare s t).
Qed.

Lemma sorted_insert_sorted x l r :
  Sorted key_le l -> sorted_insert x l = Ok r ->
  Sorted key_le r /\ r ≡ₚ x :: l
  /\ forall y, key_le y x -> HdRel key_le y l -> HdRel key_le y r.
Proof.
  revert r. induction l as [|y l IH]; intros r Hl; cbn.
  - intros [= <-]. repeat split; auto.
  - destruct (py_lt y x) as [[]|] eqn:Hlt; cbn; [| |done].
    + destruct (sorted_insert x l) as [r'|] eqn:Hr'; cbn; [|done].
      intros [= <-]. apply Sorted_inv in Hl as [Hl Hy].
      destruct (IH r' Hl eq_refl) as (Hs & Hp & Hhd).
      repeat split.
      * constructor; [done|]. apply Hhd; [by apply py_lt_true|done].
      * rewrite Hp. apply Permutation_swap.
      * intros z _ Hz. constructor. by inversion Hz.
    + intros [= <-]. repeat split; auto.
      constructor; [done|]. constructor. by apply py_lt_false.
Qed.

Lemma sorted_sorted l r :
  sorted l = Ok r -> Sorted key_le r /\ r ≡ₚ l.
Proof.
  revert r. induction l as [|x l IH]; intros r; cbn.
  - intros [= <-]. auto.
  - destruct (sorted l) as [s|] eqn:Hs; cbn; [|done]. intros Hr.
    destruct (IH s eq_refl) as [Hss Hps].
    destruct (sorted_insert_sorted x s r Hss Hr) as (? & Hp & _).
    split; [done|]. by rewrite Hp, Hps.
Qed.

Lemma sorted_insert_raises x l e : sorted_insert x l = Raise e -> e = TypeError.
Proof.
  induction l as [|y l IH]; cbn; [done|].
  destruct (py_lt y x) as [[]|] eqn:Hlt; cbn; [| done |].
  - destruct (sorted_insert x l); cbn; [done|]. intros [= <-]. by apply IH.
  - intros [= <-]. by eapply py_lt_raises.
Qed.

Lemma sorted_raises l e : sorted l = Raise e -> e = TypeError.
Proof.
  induction l as [|x l IH]; cbn; [done|].
  destruct (sorted l) as [s|]; cbn.
  - apply sorted_insert_raises.
  - intros [= <-]. by apply IH.
Qed.

Lemma sorted_insert_same_kind (kind : PyConst -> bool) x l :
  (kind = is_int \/ kind = is_str) ->
  kind x = true -> forallb kind l = true ->
  exists r, sorted_insert x l = Ok r /\ forallb kind r = true.
Proof.
  intros Hk Hx. induction l as [|y l IH]; cbn; intros Hl.
  - exists [x]. cbn. by rewrite Hx.
  - apply andb_prop in Hl as [Hy Hl]. destruct (IH Hl) as (r & Hr & Hkr).
    assert (exists b, py_lt y x = Ok b) as [b ->].
    { destruct Hk as [-> | ->]; destruct x, y; try done; cbn; eauto. }
    cbn. destruct b.
    + rewrite Hr. cbn. exists (y :: r). cbn. by rewrite Hy, Hkr.
    + exists (x :: y :: l). cbn. by rewrite Hx, Hy, Hl.
Qed.

Lemma sorted_comparable l :
  comparable l = true -> exists r, sorted l = Ok r.
Proof.
  unfold comparable. intros Hc.
  assert (exists kind, (kind = is_int \/ kind = is_str) /\ forallb kind l = true)
    as (kind & Hk & Hl).
  { apply orb_prop in Hc as [H|H]; eauto. }
  clear Hc. enough (exists r, sorted l = Ok r /\ forallb kind r = true)
    as (r & ? & _) by eauto.
  induction l as [|x l IH]; cbn; [eauto|].
  cbn in Hl. apply andb_prop in Hl as [Hx Hl].
  destruct (IH Hl) as (s & -> & Hs). cbn.
  by apply sorted_insert_same_kind.
Qed.

Lemma dict_getitem_elem_of (d : Entries) k :
  k ∈ d.*1 -> exists v, dict_getitem d k = Ok v.
Proof.
  intros Hk. unfold dict_getitem.
  apply list_elem_of_fmap in Hk as ([k' v] & -> & Hin).
  destruct (list_find (fun e => e.1 = (k', v).1) d) as [[i e]|] eqn:Hf; [eauto|].
  exfalso. eapply list_find_None in Hf.
  eapply Forall_forall in Hf; [|exact Hin]. by apply Hf.
Qed.

Lemma entries_for_keys (d : Entries) ks :
  ks ⊆ d.*1 -> exists r, entries_for d ks = Ok r /\ r.*1 = ks.
Proof.
  induction ks as [|k ks IH]; intros Hsub; cbn; [eauto|].
  destruct (dict_getitem_elem_of d k) as [v ->]; [set_solver|]. cbn.
  destruct IH as (r & -> & Hr); [set_solver|]. cbn.
  exists ((k, v) :: r). cbn. by rewrite Hr.
Qed.

(** A plain dict is stored under its sorted keys; the only refusal is
    the [TypeError] of keys that cannot be compared. *)
Lemma ConstDictVariable_plain_sorted (d : Entries) kw :
  match ConstDictVariable (PlainDict d) kw with
  | Ok v => Sorted key_le (keys_of v) /\ keys_of v ≡ₚ d.*1
  | Raise e => e = TypeError /\ comparable (d.*1) = false
  end.
Proof.
  cbn. destruct (sorted (d.*1)) as [ks|e] eqn:Hs; cbn.
  - destruct (sorted_sorted _ _ Hs) as [Hsorted Hperm].
    destruct (entries_for_keys d ks) as (r & -> & Hr).
    { intros k Hk. by rewrite <-Hperm. }
    cbn. by rewrite Hr.
  - split; [by eapply sorted_raises|].
    destruct (comparable (d.*1)) eqn:Hc; [|done].
    destruct (sorted_comparable _ Hc) as [r Hr]. congruence.
Qed.

(** ** Options of a call *)

Lemma all_tracked_vars (l : list VariableTracker) :
  forallb all_tracked (AVar <$> l) = true.
Proof. by induction l. Qed.

Lemma leaves_vars (l : list VariableTracker) : (AVar <$> l) ≫= leaves = l.
Proof. induction l as [|x l IH]; [done|]. cbn. by f_equal. Qed.

Lemma call_options_ok self args kwargs :
  call_options self args kwargs = Ok (call_guards self args kwargs).
Proof.
  unfold call_options, propagate. rewrite visit_spec.
  cbn [all_tracked forallb]. rewrite !all_tracked_vars. cbn [andb].
  f_equal. cbn [leaves mbind list_bind]. rewrite !leaves_vars.
  unfold call_guards. rewrite app_nil_r.
  change (self :: args ++ kwargs.*2) with ([self] ++ args ++ kwargs.*2).
  set_solver.
Qed.

(** ** Key assignment on dicts *)

Lemma dict_setitem_keys {V} (d : list (PyConst * V)) k v :
  (dict_setitem d k v).*1 = if decide (k ∈ d.*1) then d.*1 else d.*1 ++ [k].
Proof.
  induction d as [|[k' v'] d IH]; cbn.
  - by rewrite decide_False by set_solver.
  - destruct (decide (k' = k)) as [->|Hne]; cbn.
    + by rewrite decide_True by set_solver.
    + rewrite IH. destruct (decide (k ∈ d.*1)).
      * by rewrite decide_True by set_solver.
      * by rewrite decide_False by set_solver.
Qed.

Lemma ConstDictVariable_setattr val gs src t0 key value k st :
  as_python_constant key = Ok (PLit k) ->
  let self := VConstDict val (mkBase gs src (Some t0)) in
  ConstDictVariable_call_method self "__setattr__" [key; value] [] st
  = (Ok None,
     mkState (S (allocated st)) (graph st)
       ((self,
         VConstDict (dict_setitem val k value)
           (mkBase (call_guards self [key; value] []) None (Some (allocated st))))
        :: replaced st)).
Proof.
  intros Hk self. unfold ConstDictVariable_call_method. cbn [self].
  unfold bind at 1. unfold lift at 1. rewrite call_options_ok.
  cbn -[call_guards]. unfold bind, lift, ret, is_python_constant.
  rewrite Hk. cbn -[call_guards]. done.
Qed.

(** ** List methods *)

Lemma ListVariable_append items gs src t0 arg st :
  let self := VBaseList cls_List items (mkBase gs src (Some t0)) in
  let g := call_guards self [arg] [] in
  ListVariable_call_method self "append" [arg] [] st
  = (Ok (ConstantVariable PNone (options g)),
     substituted st self
       (ListVariable (items ++ [arg]) (mkBase g None (Some (allocated st))))).
Proof.
  intros self g. unfold ListVariable_call_method. cbn [self].
  unfold bind at 1. unfold lift at 1. rewrite call_options_ok. done.
Qed.

Lemma ListVariable_insert items gs src t0 idx i value st :
  as_python_constant idx = Ok (PLit (PInt i)) ->
  let self := VBaseList cls_List items (mkBase gs src (Some t0)) in
  let g := call_guards self [idx; value] [] in
  ListVariable_call_method self "insert" [idx; value] [] st
  = (Ok (ConstantVariable PNone (options g)),
     substituted st self
       (ListVariable (py_insert items i value) (mkBase g None (Some (allocated st))))).
Proof.
  intros Hi self g. unfold ListVariable_call_method. cbn [self].
  unfold bind at 1. unfold lift at 1. rewrite call_options_ok.
  cbn -[call_guards]. unfold bind, lift. rewrite Hi. done.
Qed.

Lemma ListVariable_pop_last items gs src t0 x rest st :
  py_pop items (-1) = Ok (x, rest) ->
  let self := VBaseList cls_List items (mkBase gs src (Some t0)) in
  let g := call_guards self [] [] in
  ListVariable_call_method self "pop" [] [] st
  = (Ok x,
     substituted st self (ListVariable rest (mkBase g None (Some (allocated st))))).
Proof.
  intros Hp self g. unfold ListVariable_call_method. cbn [self].
  unfold bind at 1. unfold lift at 1. rewrite call_options_ok.
  cbn -[call_guards py_pop]. unfold bind, lift. rewrite Hp. done.
Qed.

Lemma ListVariable_pop_at items gs src t0 idx i x rest st :
  as_python_constant idx = Ok (PLit (PInt i)) ->
  py_pop items i = Ok (x, rest) ->
  let self := VBaseList cls_List items (mkBase gs src (Some t0)) in
  let g := call_guards self [idx] [] in
  ListVariable_call_method self "pop" [idx] [] st
  = (Ok x,
     substituted st self (ListVariable rest (mkBase g None (Some (allocated st))))).
Proof.
  intros Hi Hp self g. unfold ListVariable_call_method. cbn [self].
  unfold bind at 1. unfold lift at 1. rewrite call_options_ok.
  cbn -[call_guards py_pop]. unfold bind, lift. rewrite Hi.
  cbn -[call_guards py_pop]. rewrite Hp. done.
Qed.

Lemma ListVariable_no_token items gs src name args kwargs st :
  ListVariable_call_method (VBaseList cls_List items (mkBase gs src None))
    name args kwargs st
  = (Raise Unimplemented, st).
Proof.
  unfold ListVariable_call_method.
  unfold bind at 1. unfold lift at 1. rewrite call_options_ok.
  cbn -[call_guards]. by rewrite !andb_false_r.
Qed.

(** ** Dict variables *)

Lemma not_sorted_b_a : ~ Sorted key_le [PStr "b"; PStr "a"].
Proof. intros H. apply Sorted_inv in H as [_ H]. by inversion H. Qed.

(** C8, as stated, fails: a dict variable built from the plain dict
    [{"b": 1}] has sorted keys, and assigning the key ["a"] through
    [__setattr__] makes a dict variable that stores ["b"] before ["a"]. *)
Lemma ConstDictVariable_setattr_unsorted :
  let one := ConstantVariable (PInt 1) (options ∅) in
  let a := ConstantVariable (PStr "a") (options ∅) in
  let st := mkState 1 [] [] in
  exists self new st',
    ConstDictVariable (PlainDict [(PStr "b", one)]) (mkBase ∅ None (Some 0%nat)) = Ok self
    /\ Sorted key_le (keys_of self)
    /\ ConstDictVariable_call_method self "__setattr__" [a; one] [] st = (Ok None, st')
    /\ replaced st' = [(self, new)]
    /\ keys_of new = [PStr "b"; PStr "a"]
    /\ ~ Sorted key_le (keys_of new).
Proof.
  cbn zeta. eexists _, _, _. split; [reflexivity|]. split.
  { cbn. repeat constructor. }
  split; [by apply ConstDictVariable_setattr|].
  split; [reflexivity|]. split; [reflexivity|]. apply not_sorted_b_a.
Qed.

(** C8, amended: a dict variable built from a plain dict stores its
    entries under sorted keys (keys that cannot be compared are a
    [TypeError]); one built from an ordered dict keeps the order it is
    given; and [__setattr__] on a dict variable with a mutation token
    substitutes a dict variable in which an existing key keeps its place
    and a new key comes last. *)
Theorem ConstDictVariable_key_order (d : Entries) (kw : Base) gs src t0
    (key value : VariableTracker) (k : PyConst) (st : State) :
  as_python_constant key = Ok (PLit k) ->
  match ConstDictVariable (PlainDict d) kw with
  | Ok v => Sorted key_le (keys_of v) /\ keys_of v ≡ₚ d.*1
  | Raise e => e = TypeError /\ comparable (d.*1) = false
  end
  /\ (exists v, ConstDictVariable (OrderedDict d) kw = Ok v /\ keys_of v = d.*1)
  /\ (let self := VConstDict d (mkBase gs src (Some t0)) in
      exists new st',
        ConstDictVariable_call_method self "__setattr__" [key; value] [] st
        = (Ok None, st')
        /\ replaced st' = (self, new) :: replaced st
        /\ keys_of new = if decide (k ∈ d.*1) then d.*1 else d.*1 ++ [k]).
Proof.
  intros Hk. split; [apply ConstDictVariable_plain_sorted|]. split.
  - eexists. split; reflexivity.
  - cbn zeta. eexists _, _. split; [by apply ConstDictVariable_setattr|].
    split; [reflexivity|]. cbn [keys_of]. apply dict_setitem_keys.
Qed.

Lemma ConstDictVariable_key_order_witness :
  let one := ConstantVariable (PInt 1) (options ∅) in
  let d : Entries := [(PStr "b", one); (PStr "a", one)] in
  match ConstDictVariable (PlainDict d) (options ∅) with
  | Ok v => Sorted key_le (keys_of v) /\ keys_of v ≡ₚ d.*1
  | Raise e => e = TypeError /\ comparable (d.*1) = false
  end
  /\ (exists v, ConstDictVariable (OrderedDict d) (options ∅) = Ok v
                /\ keys_of v = d.*1)
  /\ (let self := VConstDict d (mkBase ∅ None (Some 0%nat)) in
      exists new st',
        ConstDictVariable_call_method self "__setattr__"
          [ConstantVariable (PStr "c") (options ∅); one] [] (mkState 1 [] [])
        = (Ok None, st')
        /\ replaced st' = (self, new) :: replaced (mkState 1 [] [])
        /\ keys_of new = if decide (PStr "c" ∈ d.*1) then d.*1 else d.*1 ++ [PStr "c"]).
Proof.
  apply (ConstDictVariable_key_order _ _ _ _ _
           (ConstantVariable (PStr "c") (options ∅)) _ (PStr "c")).
  reflexivity.
Defined.



Lemma ListVariable_pop_fails items gs src t0 args i e st :
  (args = [] /\ i = -1
   \/ exists idx, args = [idx] /\ as_python_constant idx = Ok (PLit (PInt i))) ->
  py_pop items i = Raise e ->
  ListVariable_call_method (VBaseList cls_List items (mkBase gs src (Some t0)))
    "pop" args [] st
  = (Raise e, st).
Proof.
  intros Hargs Hp. unfold ListVariable_call_method.
  unfold bind at 1. unfold lift at 1. rewrite call_options_ok.
  destruct Hargs as [[-> ->]|(idx & -> & Hi)].
  - cbn -[call_guards py_pop]. unfold bind, lift. by rewrite Hp.
  - cbn -[call_guards py_pop]. unfold bind, lift. rewrite Hi.
    cbn -[call_guards py_pop]. by rewrite Hp.
Qed.



(** ** Iterators *)

Lemma propagate_self v : propagate [AList [AVar v]] = Ok (guards_of v).
Proof.
  unfold propagate. rewrite visit_spec. cbn. f_equal. unfold union_guards. cbn.
  set_solver.
Qed.

Lemma py_getitem_lookup {A} (l : list A) (i : nat) x :
  l !! i = Some x -> py_getitem l (Z.of_nat i) = Ok x.
Proof.
  intros Hx. unfold py_getitem. pose proof (lookup_lt_Some _ _ _ Hx).
  cbn zeta. destruct (decide (Z.of_nat i < 0)); [lia|].
  rewrite decide_True by lia. by rewrite Nat2Z.id, Hx.
Qed.

Lemma next_variables_exhausted cfg items index gs src t0 st :
  index >= Z.of_nat (length items) ->
  next_variables cfg (VListIterator items index (mkBase gs src (Some t0))) st
  = (Raise StopIteration, st).
Proof.
  intros Hi. unfold next_variables.
  rewrite bool_decide_eq_true_2 by (cbn; eauto). by rewrite decide_True.
Qed.

Lemma next_variables_step cfg items (i : nat) gs src t0 item st :
  items !! i = Some item ->
  constructible cfg item = true ->
  exists val,
    add_guards cfg item gs = Ok val
    /\ guards_of item ∪ gs ⊆ guards_of val
    /\ next_variables cfg (VListIterator items (Z.of_nat i) (mkBase gs src (Some t0))) st
       = (Ok (val, VListIterator items (Z.of_nat i + 1)
                     (mkBase gs None (Some (allocated st)))),
          mkState (S (allocated st)) (graph st) (replaced st)).
Proof.
  intros Hitem Hc.
  destruct (clone_constructible cfg item (guards_of item ∪ gs) Hc) as [val Hval].
  exists val. split; [done|]. split; [by eapply clone_guards|].
  change (add_guards cfg item gs = Ok val) in Hval.
  pose proof (lookup_lt_Some _ _ _ Hitem).
  unfold next_variables. cbn [mutable_local guards].
  rewrite bool_decide_eq_true_2 by eauto. rewrite decide_False by lia.
  unfold bind at 1. unfold lift at 1. rewrite (py_getitem_lookup _ _ _ Hitem).
  unfold bind at 1. unfold lift at 1. rewrite Hval.
  unfold bind at 1. cbn [new_MutableLocal].
  unfold bind at 1. unfold lift at 1. rewrite propagate_self. done.
Qed.

Lemma next_times_from cfg items gs st (k i : nat) src t0 :
  Forall (fun x => constructible cfg x = true) items ->
  (i + k <= length items)%nat ->
  exists vals t' st',
    next_times cfg k (VListIterator items (Z.of_nat i) (mkBase gs src (Some t0))) st
    = (Ok (vals, VListIterator items (Z.of_nat (i + k))
                   (mkBase gs (if k is O then src else None) (Some t'))), st')
    /\ length vals = k
    /\ (forall j v, vals !! j = Some v ->
          exists item, items !! (i + j)%nat = Some item
                       /\ add_guards cfg item gs = Ok v).
Proof.
  intros Hall. revert i src t0 st.
  induction k as [|k IH]; intros i src t0 st Hk.
  - exists [], t0, st. rewrite Nat.add_0_r. repeat split. intros j v. by rewrite lookup_nil.
  - destruct (lookup_lt_is_Some_2 items i) as [item Hitem]; [lia|].
    assert (constructible cfg item = true) as Hc.
    { eapply Forall_forall in Hall; [done|]. by eapply list_elem_of_lookup_2. }
    destruct (next_variables_step cfg items i gs src t0 item st Hitem Hc)
      as (val & Hval & _ & Hnext).
    cbn [next_times]. unfold bind at 1. rewrite Hnext. cbn [fst snd].
    replace (Z.of_nat i + 1) with (Z.of_nat (S i)) by lia.
    destruct (IH (S i) None (allocated st)
                (mkState (S (allocated st)) (graph st) (replaced st)))
      as (vals & t' & st' & Hrest & Hlen & Hvals); [lia|].
    unfold bind at 1. rewrite Hrest. cbn [ret fst snd].
    exists (val :: vals), t', st'.
    replace (S i + k)%nat with (i + S k)%nat by lia.
    split; [by destruct k|]. split; [cbn; lia|].
    intros [|j] v; cbn.
    + intros [= <-]. exists item. by rewrite Nat.add_0_r.
    + intros Hv. destruct (Hvals j v Hv) as (it & Hit & Hadd).
      exists it. split; [|done]. by replace (i + S j)%nat with (S i + j)%nat by lia.
Qed.



(** ** [len] of a tensor *)

Lemma propagate_args_kwargs_state args st :
  (propagate_args_kwargs args st).2 = st.
Proof.
  revert st. induction args as [|[p|i] args IH]; intros st; cbn; [done| |].
  - unfold bind, get_node. destruct (graph st !! p) as [n|]; [|done].
    destruct (example_value n) as [ex|]; [|done].
    specialize (IH st). destruct (propagate_args_kwargs args st) as [[r|err] st'];
      cbn in *; by subst.
  - unfold bind. specialize (IH st).
    destruct (propagate_args_kwargs args st) as [[r|err] st']; cbn in *; by subst.
Qed.

Lemma run_len_not_tensor n args ex :
  target n = t_len -> run_node n args = Ok ex -> exists t, ex = ExOther t.
Proof.
  unfold run_node. intros ->. repeat case_match; try done; intros [= <-]; eauto.
Qed.

Lemma call_function_len cfg fb proxy meta tb st :
  let self := VBuiltin b_len fb in
  let arg := VTensor proxy meta tb in
  BuiltinVariable_call_function cfg self [arg] [] st
  = call_len cfg [arg] [] (call_guards self [arg] []) st.
Proof.
  cbn zeta. unfold BuiltinVariable_call_function, bind, lift.
  rewrite call_options_ok. reflexivity.
Qed.

Lemma len_graph_path cfg fb proxy meta tb st :
  match size meta with Some (_ :: _) => False | _ => True end ->
  let self := VBuiltin b_len fb in
  let arg := VTensor proxy meta tb in
  let g := call_guards self [arg] [] in
  let call := BuiltinVariable_call_function cfg self [arg] [] st in
  call.2 = with_len_node st proxy
  /\ if dynamic_propagation cfg then True
     else call.1 = Ok (VTensor (length (graph st)) no_meta (options g)).
Proof.
  intros Hsize self arg g call. unfold call, self, arg.
  rewrite call_function_len. fold self arg g. unfold call_len.
  cbn [is_nil length andb].
  replace (bool_decide (1%nat = 1%nat)) with true by done. cbn [andb].
  assert ((p <~ create_proxy "call_function" t_len [NProxy proxy] ;;
           TensorVariable_create cfg p ExNone (options g)) st
          = TensorVariable_create cfg (length (graph st)) ExNone
              (options g) (with_len_node st proxy)) as Hcreate by done.
  assert (let r := TensorVariable_create cfg (length (graph st)) ExNone
                     (options g) (with_len_node st proxy) in
          r.2 = with_len_node st proxy
          /\ if dynamic_propagation cfg then True
             else r.1 = Ok (VTensor (length (graph st)) no_meta (options g))) as Hr.
  { cbn zeta. unfold TensorVariable_create, bind, get_node.
    cbn [graph with_len_node]. rewrite lookup_app_r by done.
    rewrite Nat.sub_diag. cbn [lookup list_lookup example_value].
    replace (bool_decide (@None Example = None)) with true by done.
    fold (with_len_node st proxy).
    destruct (dynamic_propagation cfg) eqn:Hdp; cbn [negb].
    - split; [|done]. cbn [node_args].
      pose proof (propagate_args_kwargs_state [NProxy proxy] (with_len_node st proxy))
        as Hst.
      destruct (propagate_args_kwargs [NProxy proxy] (with_len_node st proxy))
        as [[exs|err] st'] eqn:Hargs; cbn in Hst; subst st'; [|done].
      unfold lift.
      destruct (run_node _ exs) as [ex|err] eqn:Hrun; [|done].
      apply run_len_not_tensor in Hrun as [t ->]; [reflexivity|reflexivity].
    - split; [done|]. unfold lift, TensorVariable. rewrite Hdp. done. }
  unfold arg. destruct (size meta) as [[|d ds]|]; [|done|]; by rewrite Hcreate.
Qed.

(** C7, as stated, fails twice.  A tensor without dimensions has a
    known size, the empty one, and [len] of it goes to the graph and
    returns a tensor variable.  And under dynamic propagation (and
    dynamic shapes, so that the size is unknown) the node is made, run
    on the example tensor, and its int result ends [create] in its final
    assertion: no tensor variable is returned. *)
Lemma len_of_tensor_not_as_stated :
  let len := VBuiltin b_len (options ∅) in
  let known sz := mkMeta (Some "float32") (Some "cpu") (Some (Z.of_nat (length sz)))
                    (Some sz) (Some sz) (Some false) in
  let unknown := mkMeta (Some "float32") (Some "cpu") (Some 1) None None (Some false) in
  let input ex := mkNode "placeholder" (t_other "x") [] ex in
  let st := mkState 0 [input None] [] in
  let st' := mkState 0 [input (Some (ExTensor (known [3])))] [] in
  BuiltinVariable_call_function (mkConfig false false) len
    [VTensor 0 (known []) (options ∅)] [] st
  = (Ok (VTensor 1 no_meta (options ∅)), with_len_node st 0)
  /\ BuiltinVariable_call_function (mkConfig true true) len
       [VTensor 0 unknown (options ∅)] [] st'
     = (Raise AssertionError, with_len_node st' 0).
Proof. cbn zeta. split; reflexivity. Qed.

(** C7, amended: [len] of a tensor whose size is known and not empty
    returns the constant of its first entry and makes no node, dynamic
    shapes being off (with them on the call stops at its assertion).
    When the size is unknown or empty, exactly one node is added to the
    graph, and with dynamic propagation off the call returns a tensor
    variable for that node. *)
Theorem len_of_tensor cfg fb (proxy : Proxy) (meta : TensorMeta) tb (st : State) :
  let self := VBuiltin b_len fb in
  let arg := VTensor proxy meta tb in
  let g := call_guards self [arg] [] in
  let call := BuiltinVariable_call_function cfg self [arg] [] st in
  match size meta with
  | Some (d :: _) =>
      if dynamic_shapes cfg then call = (Raise AssertionError, st)
      else call = (Ok (ConstantVariable (PInt d) (options g)), st)
  | _ =>
      call.2 = with_len_node st proxy
      /\ if dynamic_propagation cfg then True
         else call.1 = Ok (VTensor (length (graph st)) no_meta (options g))
  end.
Proof.
  intros self arg g call.
  destruct (size meta) as [[|d ds]|] eqn:Hsize.
  - apply len_graph_path. by rewrite Hsize.
  - unfold call, self, arg. rewrite call_function_len. unfold call_len.
    cbn [is_nil length andb]. rewrite Hsize.
    by destruct (dynamic_shapes cfg).
  - apply len_graph_path. by rewrite Hsize.
Qed.

(** ** The tree rewrite *)

Section apply_facts.
Import Apply.
Local Open Scope nat_scope.

Variable fn : addr -> Heap -> Result (addr * Heap).
Variable construct : string -> list (PyConst * addr) -> Heap -> Result (addr * Heap).
Variable h0 : Heap.
Variable rank : addr -> nat.

Hypothesis fn_returns : forall v, returns (fn v).
Hypothesis construct_returns : forall cls args, returns (construct cls args).
Hypothesis h0_acyclic : acyclic h0 rank.

Abbreviation apply := (Apply.apply fn construct).

Abbreviation inv := (Apply.inv h0).
Abbreviation ext := (Apply.ext h0 rank).

Lemma ext_refl w b : inv w -> ext w w b.
Proof.
  intros Hw. split; [done|]. split; [done|]. split; [done|].
  exists []. repeat split; [constructor|set_solver..|eauto].
Qed.

Lemma ext_weaken w w' b b' : b <= b' -> ext w w' b -> ext w w' b'.
Proof.
  intros Hb (Hi & Hh & Hc & new & Hv & Hnd & Hnew & Hdom).
  repeat (split; [done|]). exists new. repeat (split; [done|]). split; [|done].
  intros a Ha. destruct (Hnew a Ha) as (? & ? & Hr). repeat split; [done..|].
  intros Hlt. specialize (Hr Hlt). lia.
Qed.

Lemma ext_trans w w1 w2 b : ext w w1 b -> ext w1 w2 b -> ext w w2 b.
Proof.
  intros (Hi1 & Hh1 & Hc1 & new1 & Hv1 & Hnd1 & Hnew1 & Hdom1)
         (Hi2 & Hh2 & Hc2 & new2 & Hv2 & Hnd2 & Hnew2 & Hdom2).
  split; [done|]. split; [by etrans|]. split; [by eauto|].
  exists (new2 ++ new1). split; [by rewrite Hv2, Hv1, app_assoc|]. split.
  { apply NoDup_app. split; [done|]. split; [|done].
    intros a Ha2 Ha1. destruct (Hnew2 a Ha2) as (Hnone & _).
    destruct (Hnew1 a Ha1) as (_ & [x Hx] & _). congruence. }
  split.
  - intros a [Ha|Ha]%elem_of_app.
    + destruct (Hnew2 a Ha) as (Hnone & Hsome & Hr). repeat split; [|done..].
      destruct (cache w !! a) as [x|] eqn:Hx; [|done].
      apply Hc1 in Hx. congruence.
    + destruct (Hnew1 a Ha) as (Hnone & [x Hx] & Hr). repeat split; [done| |done].
      exists x. by apply Hc2.
  - intros k x Hk. destruct (Hdom2 k x Hk) as [[y Hy]|Hin].
    + destruct (Hdom1 k y Hy) as [?|?]; [by left|]. right. set_solver.
    + right. set_solver.
Qed.

Lemma inv_grow w h' vis :
  inv w -> heap w `prefix_of` h' -> inv (mkWalk h' (cache w) vis).
Proof.
  intros [H1 H2 H3 H4] Hp. split; cbn.
  - by etrans.
  - intros a r Ha. apply H2 in Ha. apply prefix_length in Hp. lia.
  - intros a r es Ha Hes. destruct (H3 a r es Ha Hes) as [es' Hes'].
    exists es'. by eapply prefix_lookup_Some.
  - intros a r l Ha Hl. destruct (H4 a r l Ha Hl) as (rs & Hrs & Hall).
    exists rs. split; [by eapply prefix_lookup_Some|done].
Qed.

Lemma ext_grow w h' b :
  inv w -> heap w `prefix_of` h' -> ext w (mkWalk h' (cache w) (visited w)) b.
Proof.
  intros Hw Hp. split; [by apply inv_grow|]. split; [done|]. split; [done|].
  exists []. repeat split; [constructor|set_solver..|eauto].
Qed.

Lemma ext_alloc w o b : inv w -> ext w (alloc o w).2 b.
Proof. intros Hw. apply ext_grow; [done|]. by apply prefix_app_r. Qed.

Lemma ext_run f w b :
  inv w -> returns f -> exists r w', run f w = Done r w' /\ ext w w' b.
Proof.
  intros Hw Hf. destruct (Hf (heap w)) as (r & h' & Hr & Hp).
  exists r, (mkWalk h' (cache w) (visited w)). unfold run. rewrite Hr.
  split; [done|]. by apply ext_grow.
Qed.
Lemma apply_miss depth v w :
  cache w !! v = None ->
  apply (S depth) v w
  = obind (rewrite fn construct (apply depth) v (entered v w))
      (fun r w => Done r (recorded v r w)).
Proof. intros Hv. cbn [Apply.apply]. by rewrite Hv. Qed.

Lemma apply_hit depth v w r :
  cache w !! v = Some r -> apply (S depth) v w = Done r w.
Proof. intros Hv. cbn [Apply.apply]. by rewrite Hv. Qed.

Lemma inv_entered v w : inv w -> inv (entered v w).
Proof. intros [H1 H2 H3 H4]. by split. Qed.

(** Recording [v], visited from [w], when the rewrite of what is below
    it has come to [w3]. *)
Lemma ext_recorded v w w3 r :
  cache w !! v = None -> v < length h0 ->
  ext (entered v w) w3 (rank v) ->
  (forall es, h0 !! v = Some (ODict es) -> exists es', heap w3 !! r = Some (ODict es')) ->
  (forall l, h0 !! v = Some (OList l) ->
     exists rs, heap w3 !! r = Some (OList rs)
                /\ Forall2 (fun c rc => cache w3 !! c = Some rc) l rs) ->
  cache (recorded v r w3) !! v = Some r
  /\ ext w (recorded v r w3) (S (rank v)).
Proof.
  intros Hv Hlt (Hi & Hh & Hc & new & Hvis & Hnd & Hnew & Hdom) Hdict Hlist.
  cbn [entered heap cache visited] in *.
  assert (v ∉ new) as Hvnew.
  { intros Hin. destruct (Hnew v Hin) as (_ & _ & Hr). specialize (Hr Hlt). lia. }
  assert (cache w3 !! v = None) as Hv3.
  { destruct (cache w3 !! v) as [x|] eqn:Hx; [|done].
    destruct (Hdom v x Hx) as [[y Hy]|Hin]; [congruence|done]. }
  assert (forall k x, cache w3 !! k = Some x -> <[v:=r]> (cache w3) !! k = Some x)
    as Hmono.
  { intros k x Hk. rewrite lookup_insert_ne; [done|]. intros ->. congruence. }
  split; [apply lookup_insert_eq|].
  destruct Hi as [I1 I2 I3 I4]. split; [split; cbn [recorded heap cache]|].
  - done.
  - intros a r' Ha. destruct (decide (a = v)) as [->|Hne].
    + apply prefix_length in I1. lia.
    + rewrite lookup_insert_ne in Ha by done. by eapply I2.
  - intros a r' es Ha Hes. destruct (decide (a = v)) as [->|Hne].
    + rewrite lookup_insert_eq in Ha. injection Ha as <-. by eapply Hdict.
    + rewrite lookup_insert_ne in Ha by done. by eapply I3.
  - intros a r' l Ha Hl.
    assert (exists rs, heap w3 !! r' = Some (OList rs)
              /\ Forall2 (fun c rc => cache w3 !! c = Some rc) l rs)
      as (rs & Hrs & Hall).
    { destruct (decide (a = v)) as [->|Hne].
      - rewrite lookup_insert_eq in Ha. injection Ha as <-. by apply Hlist.
      - rewrite lookup_insert_ne in Ha by done. by eapply I4. }
    exists rs. split; [done|]. eapply Forall2_impl; [exact Hall|]. eauto.
  - cbn [recorded heap cache visited]. split; [done|]. split; [by eauto|].
    exists (new ++ [v]). split; [by rewrite Hvis, <-app_assoc|]. split.
    { apply NoDup_app. split; [done|]. split; [|apply NoDup_singleton].
      intros a Ha ->%list_elem_of_singleton. done. }
    split.
    + intros a [Ha| ->%list_elem_of_singleton]%elem_of_app.
      * destruct (Hnew a Ha) as (Hnone & [x Hx] & Hr).
        repeat split; [done|eauto|]. intros Ha0. specialize (Hr Ha0). lia.
      * repeat split; [done| |lia]. rewrite lookup_insert_eq. eauto.
    + intros k x Hk. destruct (decide (k = v)) as [->|Hne]; [right; set_solver|].
      rewrite lookup_insert_ne in Hk by done.
      destruct (Hdom k x Hk) as [?|?]; [by left|right; set_solver].
Qed.

(** A tuple made by [items()] is returned as it is. *)
Lemma apply_pair depth w p k x :
  inv w -> heap w !! p = Some (OPair k x) -> cache w !! p = None ->
  length h0 <= p ->
  apply (S depth) p w = Done p (recorded p p (entered p w))
  /\ ext w (recorded p p (entered p w)) 0.
Proof.
  intros Hw Hp Hc Hge. split.
  { rewrite apply_miss by done. unfold rewrite. cbn [entered heap]. by rewrite Hp. }
  assert (h0 !! p = None) as Hp0 by by apply lookup_ge_None.
  assert (forall a y, cache w !! a = Some y -> <[p:=p]> (cache w) !! a = Some y)
    as Hmono.
  { intros a y Ha. rewrite lookup_insert_ne; [done|]. intros ->. congruence. }
  destruct Hw as [I1 I2 I3 I4]. split; [split; cbn|].
  - done.
  - intros a r Ha. destruct (decide (a = p)) as [->|Hne].
    + by eapply lookup_lt_Some.
    + rewrite lookup_insert_ne in Ha by done. by eapply I2.
  - intros a r es Ha Hes. destruct (decide (a = p)) as [->|Hne]; [congruence|].
    rewrite lookup_insert_ne in Ha by done. by eapply I3.
  - intros a r l Ha Hl. destruct (decide (a = p)) as [->|Hne]; [congruence|].
    rewrite lookup_insert_ne in Ha by done.
    destruct (I4 a r l Ha Hl) as (rs & Hrs & Hall). exists rs. split; [done|].
    eapply Forall2_impl; [exact Hall|]. eauto.
  - cbn. split; [done|]. split; [done|]. exists [p].
    split; [done|]. split; [apply NoDup_singleton|]. split.
    + intros a ->%list_elem_of_singleton. repeat split; [done| |lia].
      rewrite lookup_insert_eq. eauto.
    + intros a y Ha. destruct (decide (a = p)) as [->|Hne]; [right; set_solver|].
      rewrite lookup_insert_ne in Ha by done. left. eauto.
Qed.

Lemma each_item_spec depth l w :
  inv w ->
  exists w', each_item (apply (S depth)) l w = Done l w' /\ ext w w' 0.
Proof.
  revert w. induction l as [|[k x] l IH]; intros w Hw.
  - exists w. split; [done|]. by apply ext_refl.
  - cbn [each_item alloc].
    set (w1 := mkWalk (heap w ++ [OPair k x]) (cache w) (visited w)).
    assert (ext w w1 0) as Hext1 by apply (ext_alloc w (OPair k x) 0 Hw).
    assert (inv w1) as Hw1 by apply Hext1.
    assert (heap w1 !! length (heap w) = Some (OPair k x)) as Hp.
    { cbn. by rewrite lookup_app_r, Nat.sub_diag. }
    assert (cache w1 !! length (heap w) = None) as Hc.
    { cbn. destruct (cache w !! length (heap w)) as [y|] eqn:Hy; [|done].
      apply (inv_dom _ _ Hw) in Hy. lia. }
    assert (length h0 <= length (heap w)) as Hge.
    { apply prefix_length. apply Hw. }
    destruct (apply_pair depth w1 _ k x Hw1 Hp Hc Hge) as [Happ Hext2].
    rewrite Happ. cbn [obind recorded entered heap]. rewrite Hp.
    destruct (IH _ (proj1 Hext2)) as (w3 & -> & Hext3). cbn [obind].
    eexists. split; [done|]. eapply ext_trans; [|exact Hext3].
    by eapply ext_trans.
Qed.

(** What the induction on the recursion limit carries. *)
Abbreviation rewrites depth :=
  (forall v w, inv w -> v < length h0 -> rank v + 1 < depth ->
     exists r w', apply depth v w = Done r w'
                  /\ cache w' !! v = Some r /\ ext w w' (S (rank v))).

Lemma each_element_spec depth b l w :
  rewrites depth -> inv w -> b < depth ->
  (forall c, c ∈ l -> c < length h0 /\ rank c < b) ->
  exists rs w',
    each_element (apply depth) l w = Done rs w'
    /\ ext w w' b
    /\ Forall2 (fun c rc => cache w' !! c = Some rc) l rs.
Proof.
  intros IH Hw Hb. revert w Hw. induction l as [|c l IHl]; intros w Hw Hl.
  - exists [], w. split; [done|]. split; [by apply ext_refl|constructor].
  - destruct (Hl c) as [Hc Hr]; [set_solver|].
    destruct (IH c w Hw Hc) as (r & w1 & Happ & Hcr & Hext1); [lia|].
    destruct (IHl w1) as (rs & w2 & Heach & Hext2 & Hall);
      [apply Hext1|set_solver|].
    exists (r :: rs), w2. cbn [each_element]. rewrite Happ. cbn [obind].
    rewrite Heach. cbn [obind]. split; [done|]. split.
    + eapply ext_trans; [|exact Hext2]. eapply ext_weaken; [|exact Hext1]. lia.
    + constructor; [|done]. destruct Hext2 as (_ & _ & Hmono & _). by apply Hmono.
Qed.

Lemma each_value_spec depth b l w :
  rewrites depth -> inv w -> b < depth ->
  (forall c, c ∈ l.*2 -> c < length h0 /\ rank c < b) ->
  exists rs w', each_value (apply depth) l w = Done rs w' /\ ext w w' b.
Proof.
  intros IH Hw Hb. revert w Hw. induction l as [|[k c] l IHl]; intros w Hw Hl.
  - exists [], w. split; [done|]. by apply ext_refl.
  - destruct (Hl c) as [Hc Hr]; [set_solver|].
    destruct (IH c w Hw Hc) as (r & w1 & Happ & Hcr & Hext1); [lia|].
    destruct (IHl w1) as (rs & w2 & Heach & Hext2);
      [apply Hext1|set_solver|].
    exists ((k, r) :: rs), w2. cbn [each_value]. rewrite Happ. cbn [obind].
    rewrite Heach. cbn [obind]. split; [done|].
    eapply ext_trans; [|exact Hext2]. eapply ext_weaken; [|exact Hext1]. lia.
Qed.

Lemma apply_rewrites depth : rewrites depth.
Proof.
  induction depth as [|depth IH]; intros v w Hw Hv Hr; [lia|].
  destruct (cache w !! v) as [r|] eqn:Hc.
  { exists r, w. rewrite (apply_hit _ _ _ _ Hc). split; [done|]. split; [done|].
    by apply ext_refl. }
  rewrite apply_miss by done.
  pose proof (inv_entered v w Hw) as Hw0.
  destruct (lookup_lt_is_Some_2 h0 v Hv) as [o Ho].
  assert (heap (entered v w) !! v = Some o) as Hheap.
  { eapply prefix_lookup_Some; [exact Ho|]. apply Hw0. }
  assert (forall c, c ∈ children o -> c < length h0 /\ rank c < rank v) as Hch.
  { intros c Hc'. by eapply (children_below _ _ h0_acyclic). }
  unfold rewrite. rewrite Hheap.
  destruct o as [cls d|l|l|l|k x|repr].
  - (* an instance *)
    destruct (Hch d) as [Hd Hrd]; [set_solver|].
    destruct (IH d _ Hw0 Hd) as (kw & w1 & -> & Hkw & Hext1); [lia|].
    cbn [obind]. pose proof (proj1 Hext1) as Hw1.
    destruct (instance_dict _ _ h0_acyclic _ _ _ Ho) as [es Hes].
    destruct (inv_dict _ _ Hw1 _ _ _ Hkw Hes) as [es' Hes'].
    unfold clone.
    rewrite (prefix_lookup_Some _ _ _ _ Ho (inv_heap _ _ Hw1)).
    rewrite (prefix_lookup_Some _ _ _ _ Hes (inv_heap _ _ Hw1)), Hes'.
    destruct (ext_run (construct cls (dict_update es es')) w1 (rank v) Hw1
                (construct_returns _ _)) as (v' & w2 & -> & Hext2).
    cbn [obind].
    destruct (ext_run (fn v') w2 (rank v) (proj1 Hext2) (fn_returns _))
      as (r & w3 & -> & Hext3).
    cbn [obind]. exists r, (recorded v r w3).
    split; [done|]. apply ext_recorded; [done..| |congruence|congruence].
    eapply ext_trans; [|exact Hext3]. eapply ext_trans; [|exact Hext2].
    eapply ext_weaken; [|exact Hext1]. lia.
  - (* a list *)
    destruct (each_element_spec depth (rank v) l _ IH Hw0) as (rs & w1 & -> & Hext1 & Hall);
      [lia|done|].
    cbn [obind alloc]. eexists _, _. split; [reflexivity|].
    apply ext_recorded; [done..| | |].
    + eapply ext_trans; [exact Hext1|]. apply (ext_alloc w1 (OList rs)), Hext1.
    + congruence.
    + intros l' Hl'. assert (l' = l) as -> by congruence.
      exists rs. cbn. by rewrite lookup_app_r, Nat.sub_diag.
  - (* an ordered dict *)
    destruct depth as [|depth]; [lia|].
    destruct (each_item_spec depth l _ Hw0) as (w1 & -> & Hext1).
    cbn [obind alloc]. eexists _, _. split; [reflexivity|].
    apply ext_recorded; [done..| |congruence|congruence].
    eapply ext_weaken; [apply Nat.le_0_l|].
    eapply ext_trans; [exact Hext1|].
    apply (ext_alloc w1 (OOrderedDict (dict_update [] l))), Hext1.
  - (* a dict *)
    destruct (each_value_spec depth (rank v) l _ IH Hw0) as (rs & w1 & -> & Hext1);
      [lia|done|].
    cbn [obind alloc]. eexists _, _. split; [reflexivity|].
    apply ext_recorded; [done..| | |congruence].
    + eapply ext_trans; [exact Hext1|]. apply (ext_alloc w1 (ODict rs)), Hext1.
    + intros es _. exists rs. cbn. by rewrite lookup_app_r, Nat.sub_diag.
  - (* a tuple *)
    cbn [obind]. eexists _, _. split; [reflexivity|].
    apply ext_recorded; [done..|by apply ext_refl|congruence|congruence].
  - (* any other object *)
    cbn [obind]. eexists _, _. split; [reflexivity|].
    apply ext_recorded; [done..|by apply ext_refl|congruence|congruence].
Qed.
End apply_facts.

Lemma self_containing_list_overflows depth vis :
  Apply.apply Apply.identity Apply.store_fields depth 0%nat
    (Apply.mkWalk self_containing_list ∅ vis)
  = Apply.RecursionError.
Proof.
  revert vis. induction depth as [|depth IH]; intros vis; [done|].
  cbn [Apply.apply Apply.cache]. rewrite lookup_empty.
  unfold Apply.rewrite, Apply.entered, self_containing_list.
  cbn [Apply.heap Apply.cache Apply.visited lookup list_lookup Apply.each_element].
  fold self_containing_list. by rewrite IH.
Qed.



Lemma list_of_shared_variable_acyclic :
  Apply.acyclic list_of_shared_variable (fun a => a).
Proof.
  split.
  - intros a o c Ha Hc.
    destruct a as [|[|[|[|a]]]]; cbn in Ha; try done;
      injection Ha as <-; cbn in Hc; set_unfold; cbn; lia.
  - intros a cls d Ha.
    destruct a as [|[|[|[|a]]]]; cbn in Ha; try done.
    injection Ha as <- <-. by eexists.
Qed.


(** * Further properties *)

(** ** What a clone keeps *)

Lemma clone_keeps cfg v g v' :
  constructible cfg v = true ->
  clone cfg v g = Ok v' ->
  constructible cfg v' = true
  /\ as_python_constant v' = as_python_constant v
  /\ items_of v' = items_of v
  /\ keys_of v' = keys_of v
  /\ source_of v' = source_of v
  /\ mutable_local_of v' = mutable_local_of v
  /\ guards_of v' = match v with
                    | VBaseList _ items _ => g ∪ union_guards items
                    | _ => g
                    end.
Proof.
  destruct v as [c b|p m b|f b|its i b|cls its b|its b|b]; cbn;
    try (intros _ [= <-]; cbn; by repeat split).
  - unfold TensorVariable. intros Hc. rewrite Hc. intros [= <-]. cbn.
    by repeat split.
  - destruct cls; cbn; try (intros _ [= <-]; cbn; repeat split; apply update_guards_union).
    intros Hlen%bool_decide_eq_true.
    destruct its as [|x [|y [|z [|? ?]]]]; try done. cbn. intros [= <-].
    repeat split. apply (update_guards_union g [x; y; z]).
Qed.



(** ** Items of lists and dicts *)

Lemma add_guards_twice cfg item g1 g2 :
  constructible cfg item = true ->
  exists v,
    (v1 <-- add_guards cfg item g1 ;; add_guards cfg v1 g2) = Ok v
    /\ as_python_constant v = as_python_constant item
    /\ items_of v = items_of item
    /\ source_of v = source_of item
    /\ mutable_local_of v = mutable_local_of item
    /\ guards_of item ∪ g1 ∪ g2 ⊆ guards_of v.
Proof.
  intros Hc.
  destruct (clone_constructible cfg item (guards_of item ∪ g1) Hc) as [v1 Hv1].
  destruct (clone_keeps cfg item _ v1 Hc Hv1) as (Hc1 & Hk1 & Hi1 & _ & Hs1 & Hm1 & _).
  destruct (clone_constructible cfg v1 (guards_of v1 ∪ g2) Hc1) as [v Hv].
  destruct (clone_keeps cfg v1 _ v Hc1 Hv) as (_ & Hk & Hi & _ & Hs & Hm & _).
  exists v. unfold add_guards. rewrite Hv1. cbn [rbind]. split; [done|].
  split; [congruence|]. split; [congruence|]. split; [congruence|].
  split; [congruence|].
  pose proof (clone_guards _ _ _ _ Hv1). pose proof (clone_guards _ _ _ _ Hv).
  set_solver.
Qed.

Lemma py_getitem_spec {A} (l : list A) (i : Z) :
  let n := Z.of_nat (length l) in
  let j := if decide (i < 0) then i + n else i in
  py_getitem l i = if decide (0 <= j < n)
                   then match l !! Z.to_nat j with
                        | Some x => Ok x
                        | None => Raise IndexError
                        end
                   else Raise IndexError.
Proof. done. Qed.

(** X2: indexing a list variable by a constant int returns the item at
    that index, counted from the end when it is negative, as the same
    constant and with the guards of the item, of the list and of the
    index; an index outside the list is an [IndexError]. *)
Theorem BaseListVariable_getitem_index (cfg : Config) cls (items : list VariableTracker) b
    (arg : VariableTracker) (i : Z) :
  as_python_constant arg = Ok (PLit (PInt i)) ->
  Forall (fun x => constructible cfg x = true) items ->
  let self := VBaseList cls items b in
  let n := Z.of_nat (length items) in
  let j := if decide (i < 0) then i + n else i in
  if decide (0 <= j < n)
  then exists item v,
         items !! Z.to_nat j = Some item
         /\ BaseListVariable_getitem_const cfg self arg = Ok v
         /\ as_python_constant v = as_python_constant item
         /\ guards_of item ∪ guards_of self ∪ guards_of arg ⊆ guards_of v
  else BaseListVariable_getitem_const cfg self arg = Raise IndexError.
Proof.
  intros Harg Hall self n j. unfold BaseListVariable_getitem_const, self.
  rewrite Harg. cbn [rbind]. unfold py_getitem. fold n. fold j.
  destruct (decide (0 <= j < n)) as [Hj|Hj]; [|done].
  destruct (lookup_lt_is_Some_2 items (Z.to_nat j)) as [item Hitem]; [lia|].
  rewrite Hitem. cbn [rbind].
  assert (constructible cfg item = true) as Hc.
  { eapply Forall_forall in Hall; [done|]. by eapply list_elem_of_lookup_2. }
  destruct (add_guards_twice cfg item (guards b) (guards_of arg) Hc)
    as (v & Hv & Hk & _ & _ & _ & Hg).
  exists item, v. by repeat split.
Qed.

Lemma BaseListVariable_getitem_index_witness :
  let cfg := mkConfig false false in
  let a := ConstantVariable (PStr "a") (options {[("a", "EQUALS")]}) in
  let b := ConstantVariable (PStr "b") (options {[("b", "EQUALS")]}) in
  let arg := ConstantVariable (PInt (-1)) (options ∅) in
  let self := VBaseList cls_Tuple [a; b] (options ∅) in
  let n := Z.of_nat (length [a; b]) in
  let j := if decide (-1 < 0) then -1 + n else -1 in
  if decide (0 <= j < n)
  then exists item v,
         [a; b] !! Z.to_nat j = Some item
         /\ BaseListVariable_getitem_const cfg self arg = Ok v
         /\ as_python_constant v = as_python_constant item
         /\ guards_of item ∪ guards_of self ∪ guards_of arg ⊆ guards_of v
  else BaseListVariable_getitem_const cfg self arg = Raise IndexError.
Proof.
  apply (BaseListVariable_getitem_index (mkConfig false false) cls_Tuple
           [ConstantVariable (PStr "a") (options {[("a", "EQUALS")]});
            ConstantVariable (PStr "b") (options {[("b", "EQUALS")]})]
           (options ∅) (ConstantVariable (PInt (-1)) (options ∅)) (-1)).
  - reflexivity.
  - repeat constructor.
Defined.

Lemma dict_getitem_missing {V} (d : list (PyConst * V)) k :
  k ∉ d.*1 -> list_find (fun e : PyConst * V => e.1 = k) d = None.
Proof.
  intros Hk. apply list_find_None, Forall_forall. intros [k' v] Hin Heq.
  cbn in Heq. subst k'. apply Hk. apply list_elem_of_fmap. by exists (k, v).
Qed.

Lemma dict_getitem_setitem (d : Entries) k v k' :
  dict_getitem (dict_setitem d k v) k'
  = if decide (k' = k) then Ok v else dict_getitem d k'.
Proof.
  unfold dict_getitem. induction d as [|[k0 v0] d IH]; cbn.
  - destruct (decide (k = k')) as [->|Hne].
    + by rewrite decide_True.
    + by rewrite decide_False by congruence.
  - destruct (decide (k0 = k)) as [->|Hne0]; cbn.
    + destruct (decide (k = k')) as [->|Hne]; [by rewrite decide_True|].
      by rewrite decide_False by congruence.
    + destruct (decide (k0 = k')) as [->|Hne1].
      * by rewrite decide_False by congruence.
      * destruct (list_find _ (dict_setitem d k v)) as [[i e]|] eqn:H1;
          destruct (list_find _ d) as [[i' e']|] eqn:H2; cbn in *;
          destruct (decide (k' = k)); try done; congruence.
Qed.

(** X3: indexing a dict variable by a constant key returns the value
    stored under the key, as the same constant and with the guards of
    the value, of the dict and of the index; a key the dict does not
    hold is a [KeyError]. *)
Theorem ConstDictVariable_getitem (cfg : Config) (items : Entries) b
    (arg : VariableTracker) (k : PyConst) :
  as_python_constant arg = Ok (PLit k) ->
  Forall (fun x => constructible cfg x = true) (items.*2) ->
  let self := VConstDict items b in
  if decide (k ∈ items.*1)
  then exists item v,
         dict_getitem items k = Ok item
         /\ (k, item) ∈ items
         /\ ConstDictVariable_getitem_const cfg self arg = Ok v
         /\ as_python_constant v = as_python_constant item
         /\ guards_of item ∪ guards_of self ∪ guards_of arg ⊆ guards_of v
  else ConstDictVariable_getitem_const cfg self arg = Raise KeyError.
Proof.
  intros Harg Hall self. unfold ConstDictVariable_getitem_const, self.
  rewrite Harg. cbn [rbind]. unfold dict_getitem.
  destruct (decide (k ∈ items.*1)) as [Hin|Hnot].
  - destruct (list_find (fun e => e.1 = k) items) as [[i [k' item]]|] eqn:Hf.
    + apply list_find_Some in Hf as (Hi & Hk & _). cbn in Hk. subst k'.
      assert ((k, item) ∈ items) as Hmem by by eapply list_elem_of_lookup_2.
      assert (constructible cfg item = true) as Hc.
      { eapply Forall_forall in Hall; [done|].
        apply list_elem_of_fmap. by exists (k, item). }
      destruct (add_guards_twice cfg item (guards b) (guards_of arg) Hc)
        as (v & Hv & Hk & _ & _ & _ & Hg).
      exists item, v. cbn [snd rbind]. by repeat split.
    + exfalso. apply list_elem_of_fmap in Hin as ([k' v] & -> & Hin).
      eapply list_find_None, Forall_forall in Hf; [|exact Hin]. by apply Hf.
  - by rewrite dict_getitem_missing.
Qed.

Lemma ConstDictVariable_getitem_witness :
  let cfg := mkConfig false false in
  let one := ConstantVariable (PInt 1) (options {[("x", "EQUALS")]}) in
  let items : Entries := [(PStr "a", one)] in
  let arg := ConstantVariable (PStr "a") (options ∅) in
  let self := VConstDict items (options ∅) in
  if decide (PStr "a" ∈ items.*1)
  then exists item v,
         dict_getitem items (PStr "a") = Ok item
         /\ (PStr "a", item) ∈ items
         /\ ConstDictVariable_getitem_const cfg self arg = Ok v
         /\ as_python_constant v = as_python_constant item
         /\ guards_of item ∪ guards_of self ∪ guards_of arg ⊆ guards_of v
  else ConstDictVariable_getitem_const cfg self arg = Raise KeyError.
Proof.
  apply (ConstDictVariable_getitem (mkConfig false false)
           [(PStr "a", ConstantVariable (PInt 1) (options {[("x", "EQUALS")]}))]
           (options ∅) (ConstantVariable (PStr "a") (options ∅)) (PStr "a")).
  - reflexivity.
  - repeat constructor.
Defined.

Lemma call_guards_includes self args kwargs x :
  x = self \/ x ∈ args \/ x ∈ kwargs.*2 ->
  guards_of x ⊆ call_guards self args kwargs.
Proof.
  intros Hx. unfold call_guards, union_guards. intros g Hg.
  apply elem_of_union_list. exists (guards_of x). split; [|done].
  apply list_elem_of_fmap. exists x. split; [done|].
  destruct Hx as [->|[?|?]]; set_solver.
Qed.

(** X4: what [__setattr__] stores can be read back.  After the key
    assignment on a dict variable with a mutation token, indexing the
    substituted dict by the same key returns the assigned value, as the
    same constant and with the guards of the value, of the key and of
    the old dict; and any other key reads what it read before. *)
Theorem ConstDictVariable_setattr_getitem (cfg : Config) (val : Entries) gs src t0
    (key value : VariableTracker) (k k' : PyConst) (st : State) :
  as_python_constant key = Ok (PLit k) ->
  constructible cfg value = true ->
  k' <> k ->
  let self := VConstDict val (mkBase gs src (Some t0)) in
  exists new st' v,
    ConstDictVariable_call_method self "__setattr__" [key; value] [] st
    = (Ok None, st')
    /\ replaced st' = (self, new) :: replaced st
    /\ ConstDictVariable_getitem_const cfg new key = Ok v
    /\ as_python_constant v = as_python_constant value
    /\ guards_of value ∪ guards_of key ∪ guards_of self ⊆ guards_of v
    /\ dict_getitem (match new with VConstDict d _ => d | _ => [] end) k'
       = dict_getitem val k'.
Proof.
  intros Hk Hc Hne self.
  pose proof (ConstDictVariable_setattr val gs src t0 key value k st Hk) as Hset.
  cbn zeta in Hset. fold self in Hset.
  destruct (add_guards_twice cfg value (call_guards self [key; value] [])
              (guards_of key) Hc) as (v & Hv & Hconst & _ & _ & _ & Hg).
  eexists _, _, v. split; [exact Hset|]. split; [reflexivity|]. split.
  { unfold ConstDictVariable_getitem_const. rewrite Hk. cbn [rbind].
    rewrite dict_getitem_setitem, decide_True by done. cbn [rbind guards].
    exact Hv. }
  split; [done|]. split.
  - pose proof (call_guards_includes self [key; value] [] self) as H1.
    set_solver.
  - rewrite dict_getitem_setitem. by rewrite decide_False.
Qed.

Lemma ConstDictVariable_setattr_getitem_witness :
  let cfg := mkConfig false false in
  let one := ConstantVariable (PInt 1) (options {[("x", "EQUALS")]}) in
  let two := ConstantVariable (PInt 2) (options {[("y", "EQUALS")]}) in
  let key := ConstantVariable (PStr "b") (options ∅) in
  let val : Entries := [(PStr "a", one)] in
  let st := mkState 1 [] [] in
  let self := VConstDict val (mkBase ∅ None (Some 0%nat)) in
  exists new st' v,
    ConstDictVariable_call_method self "__setattr__" [key; two] [] st
    = (Ok None, st')
    /\ replaced st' = (self, new) :: replaced st
    /\ ConstDictVariable_getitem_const cfg new key = Ok v
    /\ as_python_constant v = as_python_constant two
    /\ guards_of two ∪ guards_of key ∪ guards_of self ⊆ guards_of v
    /\ dict_getitem (match new with VConstDict d _ => d | _ => [] end) (PStr "a")
       = dict_getitem val (PStr "a").
Proof.
  apply (ConstDictVariable_setattr_getitem (mkConfig false false)
           [(PStr "a", ConstantVariable (PInt 1) (options {[("x", "EQUALS")]}))]
           ∅ None 0%nat (ConstantVariable (PStr "b") (options ∅))
           (ConstantVariable (PInt 2) (options {[("y", "EQUALS")]}))
           (PStr "b") (PStr "a") (mkState 1 [] [])).
  - reflexivity.
  - reflexivity.
  - discriminate.
Defined.

Lemma as_python_constant_sequence cls items b :
  match cls with cls_List | cls_Tuple | cls_Slice => True | _ => False end ->
  as_python_constant (VBaseList cls items b)
  = (r <-- constants_of items ;; Ok (PSeq cls r)).
Proof.
  intros Hcls.
  assert (forall l,
    (fix each (l : list VariableTracker) : Result (list PyValue) :=
       match l with
       | [] => Ok []
       | x :: l' => c <-- as_python_constant x ;; r <-- each l' ;; Ok (c :: r)
       end) l = constants_of l) as Heach.
  { induction l as [|x l IH]; [done|]. cbn [constants_of]. by rewrite <-IH. }
  destruct cls; try done; cbn [as_python_constant]; by rewrite Heach.
Qed.

Lemma constants_of_literals {A} (f : A -> PyConst) (kw : A -> Base) (l : list A) :
  constants_of ((fun a => ConstantVariable (f a) (kw a)) <$> l)
  = Ok ((fun a => PLit (f a)) <$> l).
Proof. induction l as [|a l IH]; [done|]. cbn. by rewrite IH. Qed.

(** X5: the three views of a dict variable agree.  [keys()] is the
    constant tuple of the keys in the order the dict stores them,
    [values()] holds the stored values in that order, and [items()]
    pairs them position by position; each view carries the guards of the
    dict, and [values()] and [items()] also those of every value.  No
    view changes the state, and none accepts an argument. *)
Theorem ConstDictVariable_views (val : Entries) (b : Base) (a : VariableTracker)
    (args : list VariableTracker) (st : State) :
  let self := VConstDict val b in
  exists ks vs its,
    ConstDictVariable_call_method self "keys" [] [] st = (Ok (Some ks), st)
    /\ ConstDictVariable_call_method self "values" [] [] st = (Ok (Some vs), st)
    /\ ConstDictVariable_call_method self "items" [] [] st = (Ok (Some its), st)
    /\ as_python_constant ks = Ok (PSeq cls_Tuple (PLit <$> val.*1))
    /\ items_of vs = val.*2
    /\ items_of <$> items_of its
       = zip_with (fun k v => [k; v]) (items_of ks) (items_of vs)
    /\ guards b ⊆ guards_of ks ∩ guards_of vs ∩ guards_of its
    /\ (forall x, x ∈ val.*2 -> guards_of x ⊆ guards_of vs ∩ guards_of its)
    /\ ConstDictVariable_call_method self "keys" (a :: args) [] st
       = (Raise AssertionError, st)
    /\ ConstDictVariable_call_method self "values" (a :: args) [] st
       = (Raise AssertionError, st)
    /\ ConstDictVariable_call_method self "items" (a :: args) [] st
       = (Raise AssertionError, st).
Proof.
  intros self. unfold ConstDictVariable_call_method, self.
  unfold bind at 1 3 5 7 9 11. unfold lift at 1 3 5 7 9 11.
  rewrite !call_options_ok. cbn -[call_guards].
  eexists _, _, _. split; [reflexivity|]. split; [reflexivity|].
  split; [reflexivity|]. split.
  { unfold TupleVariable, BaseListVariable.
    rewrite as_python_constant_sequence by done.
    rewrite (constants_of_literals fst). cbn. by rewrite <-list_fmap_compose. }
  split; [done|]. split.
  { cbn -[call_guards]. generalize (call_guards (VConstDict val b) [] []).
    intros g. induction val as [|[k v] val IH]; [done|]. cbn in *. by rewrite IH. }
  assert (guards b ⊆ call_guards (VConstDict val b) [] []) as Hb.
  { apply (call_guards_includes _ [] [] (VConstDict val b)). by left. }
  split.
  { cbn. rewrite !update_guards_union. set_solver. }
  split; [|done].
  intros x Hx. cbn. rewrite !update_guards_union. unfold union_guards.
  apply list_elem_of_fmap in Hx as ([k v] & -> & Hin). cbn.
  intros g Hg. apply elem_of_intersection. split; apply elem_of_union_r.
  - apply elem_of_union_list. exists (guards_of v). split; [|done].
    apply list_elem_of_fmap. exists v. split; [done|].
    apply list_elem_of_fmap. by exists (k, v).
  - apply elem_of_union_list. eexists. split.
    + apply list_elem_of_fmap. eexists. split; [reflexivity|].
      apply list_elem_of_fmap. exists (k, v). split; [reflexivity|done].
    + cbn. set_solver.
Qed.

Lemma constants_of_lookup items cs (j : nat) item :
  constants_of items = Ok cs -> items !! j = Some item ->
  exists c, cs !! j = Some c /\ as_python_constant item = Ok c.
Proof.
  revert cs j. induction items as [|x items IH]; intros cs j; [done|].
  cbn [constants_of]. destruct (as_python_constant x) as [c|] eqn:Hx; [|done].
  cbn [rbind]. destruct (constants_of items) as [r|] eqn:Hr; [|done].
  cbn [rbind]. intros [= <-]. destruct j as [|j]; cbn.
  - intros [= <-]. eauto.
  - intros Hj. by apply (IH r).
Qed.

(** X6: indexing commutes with taking the constant.  When a list or
    tuple variable denotes the constant sequence [cs], indexing it by a
    constant int in range gives a variable that denotes the element of
    [cs] at that index. *)
Theorem BaseListVariable_getitem_constant (cfg : Config) cls
    (items : list VariableTracker) b (arg : VariableTracker) (i : Z)
    (cs : list PyValue) :
  match cls with cls_List | cls_Tuple => True | _ => False end ->
  as_python_constant (VBaseList cls items b) = Ok (PSeq cls cs) ->
  as_python_constant arg = Ok (PLit (PInt i)) ->
  Forall (fun x => constructible cfg x = true) items ->
  let n := Z.of_nat (length items) in
  let j := if decide (i < 0) then i + n else i in
  0 <= j < n ->
  exists v c,
    BaseListVariable_getitem_const cfg (VBaseList cls items b) arg = Ok v
    /\ py_getitem cs i = Ok c
    /\ as_python_constant v = Ok c.
Proof.
  intros Hcls Hconst Harg Hall n j Hj.
  pose proof (BaseListVariable_getitem_index cfg cls items b arg i Harg Hall) as H.
  cbn zeta in H. fold n j in H. rewrite decide_True in H by done.
  destruct H as (item & v & Hitem & Hget & Hv & _).
  rewrite as_python_constant_sequence in Hconst by by destruct cls.
  destruct (constants_of items) as [r|] eqn:Hr; [|done].
  injection Hconst as <-.
  destruct (constants_of_lookup items r _ item Hr Hitem) as (c & Hc & Hic).
  exists v, c. split; [done|]. split; [|congruence].
  assert (length r = length items) as Hlen.
  { clear -Hr. revert r Hr. induction items as [|x items IH]; intros r; cbn.
    - by intros [= <-].
    - destruct (as_python_constant x); [|done]. cbn.
      destruct (constants_of items) as [r'|]; [|done]. cbn.
      intros [= <-]. cbn. f_equal. by apply IH. }
  unfold py_getitem. rewrite Hlen. fold n j. rewrite decide_True by done.
  by rewrite Hc.
Qed.

Lemma BaseListVariable_getitem_constant_witness :
  let cfg := mkConfig false false in
  let lit z := ConstantVariable (PInt z) (options ∅) in
  let items := [lit 1; lit 2; lit 3] in
  let cs := [PLit (PInt 1); PLit (PInt 2); PLit (PInt 3)] in
  exists v c,
    BaseListVariable_getitem_const cfg (VBaseList cls_List items (options ∅)) (lit 1)
    = Ok v
    /\ py_getitem cs 1 = Ok c
    /\ as_python_constant v = Ok c.
Proof.
  apply (BaseListVariable_getitem_constant (mkConfig false false) cls_List
           [ConstantVariable (PInt 1) (options ∅);
            ConstantVariable (PInt 2) (options ∅);
            ConstantVariable (PInt 3) (options ∅)]
           (options ∅) (ConstantVariable (PInt 1) (options ∅)) 1
           [PLit (PInt 1); PLit (PInt 2); PLit (PInt 3)]).
  - exact I.
  - reflexivity.
  - reflexivity.
  - repeat constructor.
  - rewrite decide_False by lia. cbn. lia.
Defined.

Lemma dict_setitem_length {V} (d : list (PyConst * V)) k v :
  length (dict_setitem d k v)
  = if decide (k ∈ d.*1) then length d else S (length d).
Proof.
  rewrite <-(length_fmap fst (dict_setitem d k v)), dict_setitem_keys.
  destruct (decide (k ∈ d.*1)); rewrite ?length_app, length_fmap; cbn; lia.
Qed.


(** ** Iteration *)

Lemma is_python_constant_items cls items b index ib :
  match cls with cls_List | cls_Tuple | cls_Slice => True | _ => False end ->
  index <= 0 ->
  (exists cs, constants_of items = Ok cs)
  \/ constants_of items = Raise NotImplementedError ->
  exists c,
    is_python_constant (VBaseList cls items b) = Ok c
    /\ is_python_constant (VListIterator items index ib) = Ok c.
Proof.
  intros Hcls Hidx Hcs.
  assert (as_python_constant (VListIterator items index ib)
          = (r <-- constants_of items ;; Ok (PIter r))) as Hit.
  { cbn [as_python_constant]. rewrite decide_False by lia.
    assert (forall l,
      (fix each (l : list VariableTracker) : Result (list PyValue) :=
         match l with
         | [] => Ok []
         | x :: l' => c <-- as_python_constant x ;; r <-- each l' ;; Ok (c :: r)
         end) l = constants_of l) as Heach.
    { induction l as [|x l IH]; [done|]. cbn [constants_of]. by rewrite <-IH. }
    by rewrite Heach. }
  unfold is_python_constant. rewrite Hit, as_python_constant_sequence by done.
  destruct Hcs as [[cs ->]| ->]; cbn; eauto.
Qed.

Lemma call_function_next cfg fn items index ib c st :
  check_constant_args [VListIterator items index ib] [] = Ok c ->
  let it := VListIterator items index ib in
  BuiltinVariable_call_function cfg (VBuiltin b_next fn) [it] [] st
  = (r <~ next_variables cfg it ;;
     _ <~ replace_all it r.2 ;;
     lift (add_guards cfg r.1 (guards fn))) st.
Proof.
  intros Hc it. unfold BuiltinVariable_call_function.
  unfold bind at 1. unfold lift at 1. fold it in Hc. rewrite Hc.
  unfold bind at 1. unfold lift at 1. rewrite call_options_ok. reflexivity.
Qed.

(** X8: [iter] and [next] compose.  [iter] of a list or tuple variable
    returns an iterator over the same items at index 0 with a mutation
    token no variable had before, and requests no substitution.  [next]
    of that iterator raises [StopIteration] and requests nothing when
    there are no items; otherwise it requests the substitution of the
    iterator by the one at index 1 and returns the first item, as the
    same constant and with the guards of the item and of the iterator. *)
Theorem iter_then_next (cfg : Config) fi fn cls (items : list VariableTracker) b
    (st : State) :
  match cls with cls_List | cls_Tuple => True | _ => False end ->
  (exists cs, constants_of items = Ok cs)
  \/ constants_of items = Raise NotImplementedError ->
  Forall (fun x => constructible cfg x = true) items ->
  let lst := VBaseList cls items b in
  let g := call_guards (VBuiltin b_iter fi) [lst] [] in
  let it := VListIterator items 0 (mkBase g None (Some (allocated st))) in
  let st1 := mkState (S (allocated st)) (graph st) (replaced st) in
  BuiltinVariable_call_function cfg (VBuiltin b_iter fi) [lst] [] st = (Ok it, st1)
  /\ match items with
     | [] =>
         BuiltinVariable_call_function cfg (VBuiltin b_next fn) [it] [] st1
         = (Raise StopIteration, st1)
     | first :: _ =>
         exists v st2,
           BuiltinVariable_call_function cfg (VBuiltin b_next fn) [it] [] st1
           = (Ok v, st2)
           /\ replaced st2
              = (it, VListIterator items 1
                       (mkBase g None (Some (S (allocated st))))) :: replaced st
           /\ graph st2 = graph st
           /\ as_python_constant v = as_python_constant first
           /\ guards_of first ∪ g ∪ guards fn ⊆ guards_of v
     end.
Proof.
  intros Hcls Hcs Hall lst g it st1.
  destruct (is_python_constant_items cls items b 0
              (mkBase g None (Some (allocated st))))
    as (c & Hlst & Hit); [by destruct cls|lia|done|].
  split.
  { unfold BuiltinVariable_call_function.
    unfold bind at 1. unfold lift at 1.
    unfold check_constant_args. cbn [app fmap list_fmap all_python_constant].
    unfold lst. rewrite Hlst. cbn [rbind].
    replace (if c then Ok true else Ok false) with (Ok (A:=bool) c) by by destruct c.
    unfold bind at 1. unfold lift at 1. rewrite call_options_ok.
    cbn [can_constant_fold_through andb]. reflexivity. }
  assert (check_constant_args [it] [] = Ok c) as Hargs.
  { unfold check_constant_args. cbn [app fmap list_fmap all_python_constant].
    unfold it. rewrite Hit. by destruct c. }
  unfold it in Hargs |- *.
  destruct items as [|first rest].
  - rewrite (call_function_next _ _ _ _ _ _ _ Hargs). reflexivity.
  - assert (constructible cfg first = true) as Hc by by inversion Hall.
    destruct (next_variables_step cfg (first :: rest) 0 g None (allocated st)
                first st1 eq_refl Hc) as (val & Hval & Hvg & Hstep).
    destruct (clone_keeps cfg first _ val Hc Hval) as (Hcv & Hkv & _).
    destruct (clone_constructible cfg val (guards_of val ∪ guards fn) Hcv)
      as [v Hv].
    destruct (clone_keeps cfg val _ v Hcv Hv) as (_ & Hkv' & _).
    pose proof (clone_guards _ _ _ _ Hv) as Hvg'.
    exists v. eexists. split.
    { rewrite (call_function_next _ _ _ _ _ _ _ Hargs). unfold bind at 1.
      change (Z.of_nat 0) with 0 in Hstep.
      rewrite Hstep. cbn [fst snd]. unfold bind at 1.
      cbn [replace_all]. unfold lift, add_guards. rewrite Hv. reflexivity. }
    cbn [replaced graph st1]. split; [done|]. split; [done|].
    split; [congruence|]. set_solver.
Qed.

Lemma iter_then_next_witness :
  let cfg := mkConfig false false in
  let a := ConstantVariable (PStr "a") (options {[("a", "EQUALS")]}) in
  let items := [a] in
  let st := mkState 0 [] [] in
  let lst := VBaseList cls_List items (options ∅) in
  let g := call_guards (VBuiltin b_iter (options ∅)) [lst] [] in
  let it := VListIterator items 0 (mkBase g None (Some (allocated st))) in
  let st1 := mkState (S (allocated st)) (graph st) (replaced st) in
  BuiltinVariable_call_function cfg (VBuiltin b_iter (options ∅)) [lst] [] st
  = (Ok it, st1)
  /\ exists v st2,
       BuiltinVariable_call_function cfg (VBuiltin b_next (options ∅)) [it] [] st1
       = (Ok v, st2)
       /\ replaced st2
          = (it, VListIterator items 1
                   (mkBase g None (Some (S (allocated st))))) :: replaced st
       /\ graph st2 = graph st
       /\ as_python_constant v = as_python_constant a
       /\ guards_of a ∪ g ∪ guards (options ∅) ⊆ guards_of v.
Proof.
  apply (iter_then_next (mkConfig false false) (options ∅) (options ∅) cls_List
           [ConstantVariable (PStr "a") (options {[("a", "EQUALS")]})]
           (options ∅) (mkState 0 [] [])).
  - exact I.
  - left. eexists. reflexivity.
  - repeat constructor.
Defined.

Lemma unpack_iterator cfg items index b :
  unpack_var_sequence cfg (VListIterator items index b)
  = add_guards_each cfg (guards b) (py_slice_from items index).
Proof.
  cbn [unpack_var_sequence]. induction (py_slice_from items index) as [|x l IH];
    [done|]. cbn [add_guards_each]. by rewrite IH.
Qed.

Lemma py_slice_from_drop {A} (l : list A) (i : nat) :
  py_slice_from l (Z.of_nat i) = drop i l.
Proof.
  unfold py_slice_from. rewrite decide_False by lia.
  destruct (decide (i <= length l)%nat).
  - by rewrite Z.min_l, Nat2Z.id by lia.
  - rewrite Z.min_r, Nat2Z.id by lia. by rewrite !drop_ge by lia.
Qed.

Lemma add_guards_each_ok cfg g l :
  Forall (fun x => constructible cfg x = true) l ->
  exists r, add_guards_each cfg g l = Ok r /\ length r = length l.
Proof.
  induction 1 as [|x l Hx _ (r & Hr & Hlen)]; [by exists []|].
  destruct (clone_constructible cfg x (guards_of x ∪ g) Hx) as [x' Hx'].
  exists (x' :: r). cbn [add_guards_each]. unfold add_guards. rewrite Hx', Hr.
  cbn. by rewrite Hlen.
Qed.

(** X9: unpacking an iterator agrees with stepping it.  With the index
    at or past the end, [unpack_var_sequence] is empty and
    [next_variables] raises [StopIteration]; before the end,
    [unpack_var_sequence] is the value [next_variables] returns followed
    by what the returned iterator unpacks to.  The returned iterator is
    no Python constant any more. *)
Theorem unpack_follows_next (cfg : Config) (items : list VariableTracker) (i : nat)
    gs src (t0 : MutableLocal) (st : State) :
  Forall (fun x => constructible cfg x = true) items ->
  let it := VListIterator items (Z.of_nat i) (mkBase gs src (Some t0)) in
  if decide (i < length items)%nat
  then exists val it' st' rest,
         next_variables cfg it st = (Ok (val, it'), st')
         /\ unpack_var_sequence cfg it' = Ok rest
         /\ unpack_var_sequence cfg it = Ok (val :: rest)
         /\ length rest = (length items - S i)%nat
         /\ is_python_constant it' = Ok false
  else unpack_var_sequence cfg it = Ok []
       /\ next_variables cfg it st = (Raise StopIteration, st).
Proof.
  intros Hall it. unfold it.
  destruct (decide (i < length items)%nat) as [Hlt|Hge].
  - destruct (lookup_lt_is_Some_2 items i Hlt) as [item Hitem].
    assert (constructible cfg item = true) as Hc.
    { eapply Forall_forall in Hall; [done|]. by eapply list_elem_of_lookup_2. }
    destruct (next_variables_step cfg items i gs src t0 item st Hitem Hc)
      as (val & Hval & _ & Hnext).
    destruct (add_guards_each_ok cfg gs (drop (S i) items)) as (rest & Hrest & Hlen).
    { by apply Forall_drop. }
    eexists val, _, _, rest. split; [exact Hnext|].
    replace (Z.of_nat i + 1) with (Z.of_nat (S i)) by lia.
    rewrite !unpack_iterator, !py_slice_from_drop. cbn [guards].
    split; [done|]. split.
    { rewrite (drop_S _ _ _ Hitem). cbn [add_guards_each].
      rewrite Hval, Hrest. done. }
    split; [by rewrite Hlen, length_drop|].
    unfold is_python_constant. cbn [as_python_constant].
    by rewrite decide_True by lia.
  - rewrite unpack_iterator, py_slice_from_drop, drop_ge by lia.
    split; [done|]. apply next_variables_exhausted. lia.
Qed.

Lemma unpack_follows_next_witness :
  let cfg := mkConfig false false in
  let a := ConstantVariable (PStr "a") (options ∅) in
  let b := ConstantVariable (PStr "b") (options ∅) in
  let items := [a; b] in
  let gs : Guards := {[("it", "LIST_LENGTH")]} in
  let st := mkState 1 [] [] in
  let it := VListIterator items (Z.of_nat 0) (mkBase gs None (Some 0%nat)) in
  if decide (0 < length items)%nat
  then exists val it' st' rest,
         next_variables cfg it st = (Ok (val, it'), st')
         /\ unpack_var_sequence cfg it' = Ok rest
         /\ unpack_var_sequence cfg it = Ok (val :: rest)
         /\ length rest = (length items - 1)%nat
         /\ is_python_constant it' = Ok false
  else unpack_var_sequence cfg it = Ok []
       /\ next_variables cfg it st = (Raise StopIteration, st).
Proof.
  apply (unpack_follows_next (mkConfig false false)
           [ConstantVariable (PStr "a") (options ∅);
            ConstantVariable (PStr "b") (options ∅)]
           0 {[("it", "LIST_LENGTH")]} None 0%nat (mkState 1 [] [])).
  repeat constructor.
Defined.

(** ** List methods, composed *)

Lemma py_pop_last {A} (l : list A) (x : A) : py_pop (l ++ [x]) (-1) = Ok (x, l).
Proof.
  unfold py_pop. cbn zeta. rewrite length_app. cbn [length].
  destruct (decide (-1 < 0)); [|lia].
  destruct (decide _); [|lia].
  replace (Z.to_nat (-1 + Z.of_nat (length l + 1))) with (length l) by lia.
  rewrite list_lookup_middle by done.
  rewrite delete_middle. by rewrite app_nil_r.
Qed.

Lemma py_insert_at {A} (l : list A) (i : nat) (x : A) :
  (i <= length l)%nat ->
  py_insert l (Z.of_nat i) x = take i l ++ x :: drop i l.
Proof.
  intros Hi. unfold py_insert. cbn zeta.
  destruct (decide (Z.of_nat i < 0)); [lia|].
  by rewrite Z.min_l, Nat2Z.id by lia.
Qed.

Lemma py_pop_inserted {A} (l : list A) (i : nat) (x : A) :
  (i <= length l)%nat ->
  py_pop (py_insert l (Z.of_nat i) x) (Z.of_nat i) = Ok (x, l).
Proof.
  intros Hi. rewrite py_insert_at by done. unfold py_pop.
  cbn zeta. rewrite length_app, length_take. cbn [length]. rewrite length_drop.
  destruct (decide (Z.of_nat i < 0)); [lia|].
  destruct (decide _); [|lia].
  rewrite Nat2Z.id.
  assert (length (take i l) = i) as Hlen by (rewrite length_take; lia).
  rewrite list_lookup_middle by done.
  assert (delete i (take i l ++ x :: drop i l) = take i l ++ drop i l) as ->.
  { rewrite <-Hlen at 1. apply delete_middle. }
  by rewrite take_drop.
Qed.

(** X10: what [append] or [insert] puts into a list, [pop] takes out
    again.  On a list variable with a mutation token, [append(x)]
    requests the substitution by a list on which [pop()] returns [x]
    itself and requests the substitution by a list with the items the
    receiver had; likewise [insert(i, x)] and [pop(i)] for an index from
    0 up to the length.  Every list on the way has a mutation token of
    its own. *)
Theorem ListVariable_put_then_pop (items : list VariableTracker) gs src
    (t0 : MutableLocal) (x idx : VariableTracker) (i : nat) (st : State) :
  as_python_constant idx = Ok (PLit (PInt (Z.of_nat i))) ->
  (i <= length items)%nat ->
  (t0 < allocated st)%nat ->
  let self := VBaseList cls_List items (mkBase gs src (Some t0)) in
  (exists none new st1 back st2,
     ListVariable_call_method self "append" [x] [] st = (Ok none, st1)
     /\ replaced st1 = (self, new) :: replaced st
     /\ ListVariable_call_method new "pop" [] [] st1 = (Ok x, st2)
     /\ replaced st2 = (new, back) :: replaced st1
     /\ items_of back = items
     /\ NoDup [mutable_local_of self; mutable_local_of new; mutable_local_of back])
  /\ (exists none new st1 back st2,
        ListVariable_call_method self "insert" [idx; x] [] st = (Ok none, st1)
        /\ replaced st1 = (self, new) :: replaced st
        /\ ListVariable_call_method new "pop" [idx] [] st1 = (Ok x, st2)
        /\ replaced st2 = (new, back) :: replaced st1
        /\ items_of back = items
        /\ NoDup [mutable_local_of self; mutable_local_of new; mutable_local_of back]).
Proof.
  intros Hidx Hi Ht self.
  assert (forall t1 t2 : nat, t1 = allocated st -> t2 = S (allocated st) ->
            NoDup [Some t0; Some t1; Some t2]) as Hnd.
  { intros t1 t2 -> ->. repeat constructor; set_solver by lia. }
  split.
  - eexists _, _, _, _, _. split; [apply ListVariable_append|].
    split; [reflexivity|]. split.
    { unfold ListVariable, BaseListVariable.
      apply ListVariable_pop_last. apply py_pop_last. }
    split; [reflexivity|]. split; [reflexivity|]. by apply Hnd.
  - eexists _, _, _, _, _. split; [by apply ListVariable_insert|].
    split; [reflexivity|]. split.
    { unfold ListVariable, BaseListVariable.
      apply (ListVariable_pop_at _ _ _ _ _ (Z.of_nat i)); [done|].
      by apply py_pop_inserted. }
    split; [reflexivity|]. split; [reflexivity|]. by apply Hnd.
Qed.

Lemma ListVariable_put_then_pop_witness :
  let a := ConstantVariable (PStr "a") (options ∅) in
  let x := ConstantVariable (PStr "x") (options ∅) in
  let idx := ConstantVariable (PInt (Z.of_nat 0)) (options ∅) in
  let st := mkState 1 [] [] in
  let self := VBaseList cls_List [a] (mkBase ∅ None (Some 0%nat)) in
  (exists none new st1 back st2,
     ListVariable_call_method self "append" [x] [] st = (Ok none, st1)
     /\ replaced st1 = (self, new) :: replaced st
     /\ ListVariable_call_method new "pop" [] [] st1 = (Ok x, st2)
     /\ replaced st2 = (new, back) :: replaced st1
     /\ items_of back = [a]
     /\ NoDup [mutable_local_of self; mutable_local_of new; mutable_local_of back])
  /\ (exists none new st1 back st2,
        ListVariable_call_method self "insert" [idx; x] [] st = (Ok none, st1)
        /\ replaced st1 = (self, new) :: replaced st
        /\ ListVariable_call_method new "pop" [idx] [] st1 = (Ok x, st2)
        /\ replaced st2 = (new, back) :: replaced st1
        /\ items_of back = [a]
        /\ NoDup [mutable_local_of self; mutable_local_of new; mutable_local_of back]).
Proof.
  apply (ListVariable_put_then_pop [ConstantVariable (PStr "a") (options ∅)]
           ∅ None 0%nat (ConstantVariable (PStr "x") (options ∅))
           (ConstantVariable (PInt (Z.of_nat 0)) (options ∅)) 0 (mkState 1 [] [])).
  - reflexivity.
  - cbn. lia.
  - cbn. lia.
Defined.

(** ** Tensor methods *)

Lemma known_other {A} (name n : string) (field : option A) :
  name <> n -> known name n field = None.
Proof. intros Hn. unfold known. by rewrite bool_decide_eq_false_2. Qed.

Lemma known_same {A} (n : string) (field : option A) : known n n field = field.
Proof. unfold known. by rewrite bool_decide_eq_true_2. Qed.

Lemma product_foldr (d : Z) (l : list Z) :
  product (d :: l) = Ok (foldr Z.mul 1 (d :: l)).
Proof.
  cbn [product foldr]. f_equal. revert d.
  induction l as [|x l IH]; intros d; cbn [foldl foldr]; [lia|].
  rewrite IH. lia.
Qed.

Lemma call_method_getitem (cfg : Config) (proxy : Proxy) (meta : TensorMeta) b
    (name : string) (value : Literal) (idx : VariableTracker) (st : State) :
  constant_result meta name = Ok (Some value) ->
  let self := VTensor proxy meta b in
  TensorVariable_call_method cfg self name [idx] [] st
  = (ConstantVariable_getitem_const value (call_guards self [idx] []) idx, st).
Proof.
  intros Hresult self. unfold TensorVariable_call_method, self.
  unfold bind at 1. unfold lift at 1. rewrite call_options_ok.
  by rewrite Hresult.
Qed.

Lemma constant_result_size (meta : TensorMeta) (dims : list Z) :
  size meta = Some dims -> constant_result meta "size" = Ok (Some (LTuple dims)).
Proof.
  intros Hs. unfold constant_result.
  rewrite known_other by done. by rewrite known_same, Hs.
Qed.

(** X11: [size(i)] and [stride(i)] of a tensor whose size, or stride, is
    known are answered from the metadata, with Python's indexing:
    the entry at a constant index [i], counted from the end when [i] is
    negative, as a constant under the guards of the tensor and of the
    index, and [IndexError] when [i] is out of range.  Neither touches
    the graph. *)
Theorem Tensor_size_at (cfg : Config) (proxy : Proxy) (meta : TensorMeta) b
    (name : string) (dims : list Z) (idx : VariableTracker) (i : Z) (st : State) :
  name = "size" /\ size meta = Some dims
  \/ name = "stride" /\ stride meta = Some dims ->
  as_python_constant idx = Ok (PLit (PInt i)) ->
  TensorVariable_call_method cfg (VTensor proxy meta b) name [idx] [] st
  = (match py_getitem dims i with
     | Ok d => Ok (ConstantVariable (PInt d) (options (guards b ∪ guards_of idx)))
     | Raise e => Raise e
     end, st).
Proof.
  intros Hname Hidx.
  assert (constant_result meta name = Ok (Some (LTuple dims))) as Hresult.
  { destruct Hname as [[-> Hs]|[-> Hs]]; [by apply constant_result_size|].
    unfold constant_result. by rewrite known_same, Hs. }
  rewrite (call_method_getitem cfg proxy meta b name (LTuple dims)) by done.
  unfold ConstantVariable_getitem_const. rewrite Hidx. cbn [rbind literal_getitem].
  destruct (py_getitem dims i) as [d|e]; [|done].
  cbn [rbind]. do 4 f_equal.
  unfold call_guards, union_guards. cbn. set_solver.
Qed.

Lemma Tensor_size_at_witness :
  let meta := mkMeta None None None (Some [2; 3]) None None in
  let idx := ConstantVariable (PInt (-1)) (options {[("i", "CONSTANT_MATCH")]}) in
  TensorVariable_call_method (mkConfig false false)
    (VTensor 0%nat meta (options {[("x", "TENSOR_MATCH")]})) "size" [idx] []
    (mkState 0 [] [])
  = (Ok (ConstantVariable (PInt 3)
           (options ({[("x", "TENSOR_MATCH")]} ∪ {[("i", "CONSTANT_MATCH")]}))),
     mkState 0 [] []).
Proof.
  exact (Tensor_size_at (mkConfig false false) 0%nat
           (mkMeta None None None (Some [2; 3]) None None)
           (options {[("x", "TENSOR_MATCH")]}) "size" [2; 3]
           (ConstantVariable (PInt (-1)) (options {[("i", "CONSTANT_MATCH")]}))
           (-1) (mkState 0 [] [])
           (or_introl (conj eq_refl eq_refl)) eq_refl).
Defined.

(** X12: the length of a tensor is its first size, whichever way it is
    asked for.  With static shapes and a known size that is not empty,
    the method [__len__], the builtin [len] (held by a variable without
    guards) and [size(0)] (on a constant index without guards) return
    the same constant, the first entry of the size under the guards of
    the tensor, and none of them touches the graph. *)
Theorem Tensor_len_is_first_size (cfg : Config) (proxy : Proxy) (meta : TensorMeta) b
    (d : Z) (dims : list Z) (zero : VariableTracker) (st : State) :
  dynamic_shapes cfg = false ->
  size meta = Some (d :: dims) ->
  zero = ConstantVariable (PInt 0) (options ∅) ->
  let self := VTensor proxy meta b in
  let answer := (Ok (ConstantVariable (PInt d) (options (guards b))), st) in
  TensorVariable_call_method cfg self "__len__" [] [] st = answer
  /\ BuiltinVariable_call_function cfg (BuiltinVariable b_len (options ∅)) [self] [] st
     = answer
  /\ TensorVariable_call_method cfg self "size" [zero] [] st = answer.
Proof.
  intros Hdyn Hsize -> self answer.
  assert (BuiltinVariable_call_function cfg (BuiltinVariable b_len (options ∅))
            [self] [] st = answer) as Hlen.
  { unfold BuiltinVariable, self. rewrite call_function_len.
    unfold call_len. cbn [is_nil length andb].
    replace (bool_decide (1%nat = 1%nat)) with true by done.
    rewrite Hsize, Hdyn. cbn [negb]. unfold ret, answer. do 4 f_equal.
    unfold call_guards, union_guards. cbn. set_solver. }
  split; [|split; [done|]].
  - unfold TensorVariable_call_method, self.
    unfold bind at 1. unfold lift at 1. rewrite call_options_ok.
    assert (constant_result meta "__len__" = Ok None) as ->.
    { unfold constant_result. rewrite !known_other by done.
      replace (bool_decide ("__len__" = "ndimension")) with false by done.
      replace (bool_decide ("__len__" = "dim")) with false by done. done. }
    unfold bind at 1. unfold lift at 1.
    replace (bool_decide ("__len__" = "repeat")) with false by done.
    unfold bind at 1. unfold ret at 1.
    replace (bool_decide ("__len__" = "item")) with false by done.
    replace (bool_decide ("__len__" = "tolist")) with false by done.
    cbn [orb]. replace (bool_decide ("__len__" = "__len__")) with true by done.
    exact Hlen.
  - unfold self.
    rewrite (call_method_getitem cfg proxy meta b "size" (LTuple (d :: dims)))
      by (by apply constant_result_size).
    unfold ConstantVariable_getitem_const, answer.
    cbn [as_python_constant ConstantVariable rbind literal_getitem].
    change (py_getitem (d :: dims) 0) with (Ok (A := Z) d). cbn [rbind].
    do 4 f_equal. unfold call_guards, union_guards. cbn. set_solver.
Qed.

Lemma Tensor_len_is_first_size_witness :
  let cfg := mkConfig true false in
  let meta := mkMeta (Some "float32") None (Some 2) (Some [2; 3]) None None in
  let self := VTensor 0%nat meta (options {[("x", "TENSOR_MATCH")]}) in
  let zero := ConstantVariable (PInt 0) (options ∅) in
  let st := mkState 0 [] [] in
  let answer :=
    (Ok (ConstantVariable (PInt 2) (options {[("x", "TENSOR_MATCH")]})), st) in
  TensorVariable_call_method cfg self "__len__" [] [] st = answer
  /\ BuiltinVariable_call_function cfg (BuiltinVariable b_len (options ∅)) [self] [] st
     = answer
  /\ TensorVariable_call_method cfg self "size" [zero] [] st = answer.
Proof.
  exact (Tensor_len_is_first_size (mkConfig true false) 0%nat
           (mkMeta (Some "float32") None (Some 2) (Some [2; 3]) None None)
           (options {[("x", "TENSOR_MATCH")]}) 2 [3]
           (ConstantVariable (PInt 0) (options ∅)) (mkState 0 [] [])
           eq_refl eq_refl eq_refl).
Defined.

(** X13: [numel()] of a tensor whose size is known is the product of
    the sizes, as a constant under the guards of the tensor, except for
    a tensor without dimensions: the product of the empty size is not 1
    but a [TypeError], raised before anything is put into the graph. *)
Theorem Tensor_numel (cfg : Config) (proxy : Proxy) (meta : TensorMeta) b
    (dims : list Z) (st : State) :
  size meta = Some dims ->
  TensorVariable_call_method cfg (VTensor proxy meta b) "numel" [] [] st
  = (match dims with
     | [] => Raise TypeError
     | _ :: _ => Ok (ConstantVariable (PInt (foldr Z.mul 1 dims)) (options (guards b)))
     end, st).
Proof.
  intros Hsize. unfold TensorVariable_call_method.
  unfold bind at 1. unfold lift at 1. rewrite call_options_ok.
  unfold constant_result. rewrite !known_other by done.
  rewrite known_same, Hsize.
  destruct dims as [|d dims]; [done|].
  rewrite product_foldr. cbn -[foldr call_guards]. unfold ret. do 4 f_equal.
  unfold call_guards, union_guards. cbn. set_solver.
Qed.

Lemma Tensor_numel_witness :
  TensorVariable_call_method (mkConfig false false)
    (VTensor 0%nat (mkMeta None None None (Some []) None None) (options ∅))
    "numel" [] [] (mkState 0 [] [])
  = (Raise TypeError, mkState 0 [] []).
Proof.
  exact (Tensor_numel (mkConfig false false) 0%nat
           (mkMeta None None None (Some []) None None) (options ∅) []
           (mkState 0 [] []) eq_refl).
Defined.

(** X14: [item] and [tolist] always break the graph: whatever the
    metadata of the tensor and whatever the arguments, the call raises
    the graph-break signal and leaves the graph and the rest of the
    state as they were. *)
Theorem Tensor_item_graph_break (cfg : Config) (proxy : Proxy) (meta : TensorMeta) b
    (name : string) (args : list VariableTracker) (kwargs : Kwargs) (st : State) :
  name = "item" \/ name = "tolist" ->
  TensorVariable_call_method cfg (VTensor proxy meta b) name args kwargs st
  = (Raise Unimplemented, st).
Proof.
  intros Hname. unfold TensorVariable_call_method.
  unfold bind at 1. unfold lift at 1. rewrite call_options_ok.
  assert (constant_result meta name = Ok None) as ->.
  { unfold constant_result.
    destruct Hname as [-> | ->]; rewrite !known_other by done; done. }
  unfold bind at 1. unfold lift at 1.
  by destruct Hname as [-> | ->].
Qed.

Lemma Tensor_item_graph_break_witness :
  TensorVariable_call_method (mkConfig false false)
    (VTensor 0%nat (mkMeta None None (Some 0) (Some []) (Some []) None) (options ∅))
    "item" [] [] (mkState 0 [] [])
  = (Raise Unimplemented, mkState 0 [] []).
Proof.
  apply (Tensor_item_graph_break (mkConfig false false) 0%nat
           (mkMeta None None (Some 0) (Some []) (Some []) None) (options ∅)
           "item" [] [] (mkState 0 [] [])).
  left. reflexivity.
Defined.

(** ** Skipped files *)

Lemma load_snoc dirs found file :
  Skipfiles.load dirs (found ++ [file])
  = Skipfiles.add (Skipfiles.load dirs found) file.
Proof. unfold Skipfiles.load. by rewrite foldl_app. Qed.

Lemma load_compiled dirs found :
  found <> [] ->
  Skipfiles.SKIP_DIRS_RE (Skipfiles.load dirs found)
  = Some (Skipfiles.SKIP_DIRS (Skipfiles.load dirs found)).
Proof.
  destruct found as [|f found _] using rev_ind; [done|]. intros _.
  by rewrite load_snoc.
Qed.

Lemma re_match_snoc alts d s :
  Skipfiles.re_match (alts ++ [d]) s
  = existsb (fun d => bool_decide (d `prefix_of` s)) alts
    || bool_decide (d `prefix_of` s).
Proof.
  destruct alts as [|a alts]; cbn [app Skipfiles.re_match existsb orb].
  - by rewrite orb_false_r.
  - rewrite List.existsb_app. cbn [existsb]. by rewrite orb_false_r, orb_assoc.
Qed.

Lemma check_add st file f :
  Skipfiles.check (Skipfiles.add st file) (Some f)
  = Skipfiles.Returns
      (existsb (fun d => bool_decide (d `prefix_of` f)) (Skipfiles.SKIP_DIRS st)
       || bool_decide ((Skipfiles.dirname file ++ [Skipfiles.sep]) `prefix_of` f)).
Proof. cbn. by rewrite re_match_snoc. Qed.

Lemma head_of_base base :
  Skipfiles.sep ∉ base -> Skipfiles.head_of base = [].
Proof.
  induction base as [|c base IH]; [done|]. intros Hsep.
  cbn. rewrite IH by set_solver. destruct (decide (c = Skipfiles.sep)); set_solver.
Qed.

Lemma head_of_file dir base :
  Skipfiles.sep ∉ base ->
  Skipfiles.head_of (dir ++ Skipfiles.sep :: base) = dir ++ [Skipfiles.sep].
Proof.
  intros Hsep. induction dir as [|c dir IH].
  - cbn. rewrite head_of_base by done. by destruct (decide _).
  - cbn [app Skipfiles.head_of]. rewrite IH. by destruct dir.
Qed.

Lemma rstrip_dir dir x :
  last dir = Some x -> x <> Skipfiles.sep ->
  Skipfiles.rstrip (dir ++ [Skipfiles.sep]) = dir.
Proof.
  intros Hlast Hx. induction dir as [|c dir IH]; [done|].
  destruct dir as [|c' dir].
  - injection Hlast as ->. cbn [app Skipfiles.rstrip].
    destruct (decide (Skipfiles.sep = Skipfiles.sep)); [|done].
    by destruct (decide (x = Skipfiles.sep)).
  - cbn [app Skipfiles.rstrip] in *. rewrite IH by done. done.
Qed.

Lemma dirname_file dir base x :
  last dir = Some x -> x <> Skipfiles.sep -> Skipfiles.sep ∉ base ->
  Skipfiles.dirname (dir ++ Skipfiles.sep :: base) = dir.
Proof.
  intros Hlast Hx Hsep. unfold Skipfiles.dirname. cbn zeta.
  rewrite head_of_file by done.
  rewrite bool_decide_eq_true_2 by (by destruct dir).
  rewrite bool_decide_eq_true_2; [by apply (rstrip_dir dir x)|].
  intros Heq. apply Hx.
  assert (x ∈ dir ++ [Skipfiles.sep]) as Hin.
  { apply elem_of_app. left. apply last_Some in Hlast as [l' ->]. set_solver. }
  rewrite Heq in Hin. by apply elem_of_replicate in Hin as [? _].
Qed.

(** X15: [check] works only once [add] has run.  [check(None)] is
    always true.  On a file name, [check] fails on the missing pattern
    exactly when none of the third-party libraries could be imported,
    so that [add] was never called; after any [add] it returns. *)
Theorem check_needs_add (dirs found : list Skipfiles.Path) (f : Skipfiles.Path) :
  Skipfiles.check (Skipfiles.load dirs found) None = Skipfiles.Returns true
  /\ (Skipfiles.check (Skipfiles.load dirs found) (Some f) = Skipfiles.AttributeError
      <-> found = []).
Proof.
  split; [done|]. split.
  - intros Hcheck. destruct (decide (found = [])) as [|Hne]; [done|].
    cbn in Hcheck. by rewrite load_compiled in Hcheck.
  - by intros ->.
Qed.

(** X16: [add] only adds.  A file that [check] skips is still skipped
    after any further calls of [add]. *)
Theorem check_monotone (dirs found more : list Skipfiles.Path)
    (name : option Skipfiles.Path) :
  Skipfiles.check (Skipfiles.load dirs found) name = Skipfiles.Returns true ->
  Skipfiles.check (Skipfiles.load dirs (found ++ more)) name = Skipfiles.Returns true.
Proof.
  intros Hcheck. induction more as [|file more IH] using rev_ind.
  { by rewrite app_nil_r. }
  destruct name as [f|]; [|done].
  rewrite app_assoc, load_snoc, check_add.
  destruct (decide (found ++ more = [])) as [Hnil|Hne].
  { apply app_eq_nil in Hnil as [-> ->]. done. }
  cbn in IH. rewrite load_compiled in IH by done.
  injection IH as IH. unfold Skipfiles.re_match in IH.
  destruct (Skipfiles.SKIP_DIRS _) as [|d ds] eqn:Hdirs.
  - destruct (found ++ more) as [|? ? _] using rev_ind; [done|].
    rewrite load_snoc in Hdirs. cbn in Hdirs. by destruct (Skipfiles.SKIP_DIRS _).
  - by rewrite IH.
Qed.

Lemma check_monotone_witness :
  let site := String.list_ascii_of_string "/site/" in
  let numpy := String.list_ascii_of_string "/site/numpy/__init__.py" in
  let tqdm := String.list_ascii_of_string "/site/tqdm/__init__.py" in
  Skipfiles.check (Skipfiles.load [] ([numpy] ++ [tqdm]))
    (Some (String.list_ascii_of_string "/site/numpy/core/numeric.py"))
  = Skipfiles.Returns true.
Proof.
  apply (check_monotone [] [String.list_ascii_of_string "/site/numpy/__init__.py"]
           [String.list_ascii_of_string "/site/tqdm/__init__.py"]
           (Some (String.list_ascii_of_string "/site/numpy/core/numeric.py"))).
  vm_compute. reflexivity.
Defined.

(** X17: [add] skips the directory of the module, and by itself nothing
    beside it.  For a module whose file is [dir/base], every path below
    [dir/] is skipped from then on; a path that goes on after [dir]
    with anything but the separator (a sibling such as [dir2/...]) is
    skipped only if one of the directories listed before starts it. *)
Theorem add_skips_directory (st : Skipfiles.Skip)
    (dir base rest rest' : Skipfiles.Path) (x c : ascii) :
  last dir = Some x -> x <> Skipfiles.sep -> Skipfiles.sep ∉ base ->
  c <> Skipfiles.sep ->
  let file := dir ++ Skipfiles.sep :: base in
  Skipfiles.check (Skipfiles.add st file) (Some (dir ++ Skipfiles.sep :: rest))
  = Skipfiles.Returns true
  /\ Skipfiles.check (Skipfiles.add st file) (Some (dir ++ c :: rest'))
     = Skipfiles.Returns
         (existsb (fun d => bool_decide (d `prefix_of` (dir ++ c :: rest')))
            (Skipfiles.SKIP_DIRS st)).
Proof.
  intros Hlast Hx Hsep Hc file. unfold file.
  rewrite !check_add, (dirname_file dir base x) by done. split.
  - rewrite (bool_decide_eq_true_2 (_ `prefix_of` _)); [by rewrite orb_true_r|].
    exists rest. by rewrite <-app_assoc.
  - rewrite (bool_decide_eq_false_2 (_ `prefix_of` _)); [by rewrite orb_false_r|].
    intros Hpre. apply prefix_app_inv in Hpre.
    by apply prefix_cons_inv_1 in Hpre.
Qed.

Lemma add_skips_directory_witness :
  let st := Skipfiles.mkSkip [String.list_ascii_of_string "<frozen importlib"] None in
  let file := String.list_ascii_of_string "/site/torch/__init__.py" in
  Skipfiles.check (Skipfiles.add st file)
    (Some (String.list_ascii_of_string "/site/torch/nn/functional.py"))
  = Skipfiles.Returns true
  /\ Skipfiles.check (Skipfiles.add st file)
       (Some (String.list_ascii_of_string "/site/torchvision/ops.py"))
     = Skipfiles.Returns false.
Proof.
  exact (add_skips_directory
           (Skipfiles.mkSkip [String.list_ascii_of_string "<frozen importlib"] None)
           (String.list_ascii_of_string "/site/torch")
           (String.list_ascii_of_string "__init__.py")
           (String.list_ascii_of_string "nn/functional.py")
           (String.list_ascii_of_string "ision/ops.py") "h"%char "v"%char
           eq_refl ltac:(discriminate) ltac:(vm_compute; set_solver)
           ltac:(discriminate)).
Defined.

(** ** The tree rewrite and ordered dicts *)

Lemma dict_setitem_new {V} (d : list (PyConst * V)) k v :
  k ∉ d.*1 -> dict_setitem d k v = d ++ [(k, v)].
Proof.
  induction d as [|[k' v'] d IH]; [done|]. intros Hk. cbn.
  rewrite decide_False by set_solver. rewrite IH by set_solver. done.
Qed.

Lemma dict_update_new (acc l : list (PyConst * Apply.addr)) :
  NoDup (acc.*1 ++ l.*1) -> Apply.dict_update acc l = acc ++ l.
Proof.
  revert acc. induction l as [|[k x] l IH]; intros acc Hnd.
  { by rewrite app_nil_r. }
  unfold Apply.dict_update. cbn [foldl fst snd].
  cbn [fmap list_fmap fst] in Hnd.
  apply NoDup_app in Hnd as (Hacc & Hdis & Hl).
  rewrite dict_setitem_new by set_solver.
  fold (Apply.dict_update (acc ++ [(k, x)]) l). rewrite IH.
  - by rewrite <-app_assoc.
  - rewrite fmap_app. cbn. rewrite <-app_assoc. cbn.
    apply NoDup_app. split; [done|]. split; [done|done].
Qed.

(** The tuples of [items()] are new objects, and [apply] returns each
    as it is. *)
Lemma each_item_pairs
    (fn : Apply.addr -> Apply.Heap -> Result (Apply.addr * Apply.Heap))
    (construct : string -> list (PyConst * Apply.addr) -> Apply.Heap
                 -> Result (Apply.addr * Apply.Heap))
    (depth : nat) (l : list (PyConst * Apply.addr)) (w : Apply.Walk) :
  (forall a, is_Some (Apply.cache w !! a) -> (a < length (Apply.heap w))%nat) ->
  exists w',
    Apply.each_item (Apply.apply fn construct (S depth)) l w = Apply.Done l w'
    /\ Apply.heap w `prefix_of` Apply.heap w'
    /\ (forall a, is_Some (Apply.cache w' !! a) -> (a < length (Apply.heap w'))%nat)
    /\ exists new,
         Apply.visited w' = new ++ Apply.visited w
         /\ forall a, a ∈ new -> (length (Apply.heap w) <= a)%nat.
Proof.
  revert w. induction l as [|[k x] l IH]; intros w Hdom.
  { exists w. split; [done|]. split; [done|]. split; [done|].
    exists []. split; [done|]. set_solver. }
  cbn [Apply.each_item Apply.alloc].
  set (p := length (Apply.heap w)).
  set (w1 := Apply.mkWalk (Apply.heap w ++ [Apply.OPair k x]) (Apply.cache w)
               (Apply.visited w)).
  assert (Apply.heap w1 !! p = Some (Apply.OPair k x)) as Hp.
  { cbn. by rewrite lookup_app_r, Nat.sub_diag. }
  assert (Apply.cache w1 !! p = None) as Hc.
  { cbn. destruct (Apply.cache w !! p) as [y|] eqn:Hy; [|done].
    assert (p < length (Apply.heap w))%nat by (apply Hdom; eauto). unfold p in *. lia. }
  rewrite apply_miss by done. unfold Apply.rewrite.
  cbn [Apply.entered Apply.heap]. change (Apply.heap w ++ [Apply.OPair k x])
    with (Apply.heap w1). rewrite Hp.
  cbn [Apply.obind]. set (w2 := Apply.recorded p p (Apply.entered p w1)).
  assert (Apply.heap w2 !! p = Some (Apply.OPair k x)) as -> by exact Hp.
  destruct (IH w2) as (w3 & -> & Hpre & Hdom3 & new & Hvis & Hnew).
  { intros a Ha. unfold w2 in *. cbn in *.
    destruct (decide (a = p)) as [->|Hne].
    - rewrite length_app. cbn. unfold p. lia.
    - rewrite lookup_insert_ne in Ha by done.
      apply Hdom in Ha. rewrite length_app. lia. }
  cbn [Apply.obind]. exists w3. split; [done|].
  unfold w2, w1 in Hpre, Hvis, Hnew.
  cbn [Apply.heap Apply.visited Apply.recorded Apply.entered] in Hpre, Hvis, Hnew.
  split; [by eapply prefix_app_l|]. split; [done|].
  exists (new ++ [p]). split; [by rewrite Hvis, <-app_assoc|].
  intros a [Ha| ->%list_elem_of_singleton]%elem_of_app; [|unfold p; lia].
  apply Hnew in Ha. rewrite length_app in Ha. unfold p. lia.
Qed.

(** X18: [apply] does not go into an ordered dict.  What it rewrites
    there are the tuples of [items()], and a tuple is returned as it is:
    whatever the callback and the constructors do, and under any
    recursion limit from 2 on, [apply] on an ordered dict returns a new
    ordered dict that holds the same values under the same keys; the
    only values that went past the cache test are the dict and tuples
    made on the way, so the callback met none of the dict's values. *)
Theorem apply_ordered_dict_values
    (fn : Apply.addr -> Apply.Heap -> Result (Apply.addr * Apply.Heap))
    (construct : string -> list (PyConst * Apply.addr) -> Apply.Heap
                 -> Result (Apply.addr * Apply.Heap))
    (h : Apply.Heap) (v : Apply.addr) (l : list (PyConst * Apply.addr))
    (depth : nat) :
  h !! v = Some (Apply.OOrderedDict l) ->
  NoDup l.*1 ->
  exists r w',
    Apply.apply fn construct (S (S depth)) v (start h) = Apply.Done r w'
    /\ Apply.heap w' !! r = Some (Apply.OOrderedDict l)
    /\ (length h <= r)%nat
    /\ h `prefix_of` Apply.heap w'
    /\ (forall a, a ∈ Apply.visited w' -> a = v \/ (length h <= a)%nat).
Proof.
  intros Hv Hnd.
  destruct (each_item_pairs fn construct depth l (Apply.entered v (start h)))
    as (w1 & Heach & Hpre & _ & new & Hvis & Hnew).
  { intros a [x Hx]. cbn in Hx. by rewrite lookup_empty in Hx. }
  rewrite apply_miss by done. unfold Apply.rewrite.
  cbn [Apply.entered Apply.heap start]. rewrite Hv.
  change (Apply.mkWalk h ∅ [v]) with (Apply.entered v (start h)).
  rewrite Heach. cbn [Apply.obind Apply.alloc Apply.recorded Apply.heap Apply.visited].
  rewrite dict_update_new by done. cbn [app].
  cbn [Apply.entered Apply.heap start] in Hpre, Hnew.
  eexists _, _. split; [done|]. cbn [Apply.heap Apply.visited Apply.recorded].
  split; [by rewrite lookup_app_r, Nat.sub_diag|].
  split; [by apply prefix_length|].
  split; [by apply prefix_app_r|].
  intros a Ha. rewrite Hvis in Ha. cbn [Apply.entered Apply.visited start] in Ha.
  apply elem_of_app in Ha as [Ha|Ha]; [|left; set_solver].
  right. by apply Hnew.
Qed.

Lemma apply_ordered_dict_values_witness :
  let h := [Apply.OAtom "x"; Apply.OOrderedDict [(PStr "a", 0%nat)]] in
  exists r w',
    Apply.apply (fun _ _ => Raise ValueError) (fun _ _ _ => Raise ValueError)
      2 1%nat (start h) = Apply.Done r w'
    /\ Apply.heap w' !! r = Some (Apply.OOrderedDict [(PStr "a", 0%nat)])
    /\ (length h <= r)%nat
    /\ h `prefix_of` Apply.heap w'
    /\ (forall a, a ∈ Apply.visited w' -> a = 1%nat \/ (length h <= a)%nat).
Proof.
  apply (apply_ordered_dict_values (fun _ _ => Raise ValueError)
           (fun _ _ _ => Raise ValueError)
           [Apply.OAtom "x"; Apply.OOrderedDict [(PStr "a", 0%nat)]] 1%nat
           [(PStr "a", 0%nat)] 0%nat).
  - reflexivity.
  - cbn. apply NoDup_singleton.
Defined.
